(** * PPTFromVideo: frame sampling and timestamp resolution

    A shallow embedding of the two extractors of the repository:
    - [Main]    : [YouTubeScreenshots.extract_frames]  (src/main.py),
    - [AtTime]  : [YouTubeTimestampScreenshot.get_screenshot] and
                  [capture_timestamps]                  (src/at_time.py).

    Python integers are unbounded and are modelled by [Z].  The only
    floating point value that takes part in a decision is
    [np.mean(diff)]; it is modelled by the exact rational mean, [nan]
    (mean of an empty array) by [None]. *)

From Stdlib Require Import ZArith QArith Qround List Bool Lia.
From Stdlib Require Ascii String DecimalString DecimalN.
Import ListNotations.
Local Open Scope Z_scope.

(** ** The OpenCV / NumPy primitives used by the decision loop *)

Module Cv.

(** A grayscale image, flattened: one luminance sample per pixel. *)
Definition Gray := list Z.

Fixpoint absdiff_px (a b : Gray) : list Z :=
  match a, b with
  | x :: a', y :: b' => Z.abs (x - y) :: absdiff_px a' b'
  | _, _ => []
  end.

(** [cv2.absdiff(a, b)]; OpenCV raises when the two shapes differ. *)
Definition absdiff (a b : Gray) : option (list Z) :=
  if Nat.eqb (length a) (length b) then Some (absdiff_px a b) else None.

Definition total (d : list Z) : Z := fold_right Z.add 0 d.

(** [np.mean(d)]: [None] stands for [nan]. *)
Definition np_mean (d : list Z) : option Q :=
  match d with
  | [] => None
  | _ :: _ => Some (total d # Pos.of_nat (length d))
  end.

(** [m > t] on floats: every comparison with [nan] is false. *)
Definition gt (m : option Q) (t : Q) : bool :=
  match m with
  | None => false
  | Some q => negb (Qle_bool q t)
  end.

(** Outcome of [cv2.imwrite]. *)
Inductive imwrite_result := WriteOk | WriteFailed | WriteRaised.

(** What the loop observes of a decoded frame: the result of
    [cv2.cvtColor(frame, COLOR_BGR2GRAY)] ([None] when it raises) and
    the outcome [cv2.imwrite] has if the frame is saved. *)
Record Frame := {
  cvtColor : option Gray;
  imwrite : imwrite_result
}.

End Cv.

(** Exceptions that leave the modelled functions. *)
Inductive exn := ZeroDivisionError | CvError.

(** ** src/main.py: the scene-driven extractor *)

Module Main.
Import Cv.

(** Which branch of the decision rule set [should_capture]. *)
Inductive Trigger := SceneChange | Interval.

(** One execution of the [if should_capture:] block. *)
Record Capture := {
  sequence_number : Z;              (* screenshots_taken in the file name *)
  frame_index : Z;                  (* frame_count at the capture *)
  timestamp : Z * Z * Z;            (* hours, minutes, secs of the file name *)
  trigger : Trigger;
  written : imwrite_result
}.

(** The loop variables of [extract_frames]. *)
Record State := {
  prev_frame : option Gray;
  frame_count : Z;
  last_captured : Z;
  screenshots_taken : Z
}.

Section Loop.

Variables (fps interval_seconds : Z) (scene_threshold : Q).

Definition init : State :=
  {| prev_frame := None;
     frame_count := 0;
     last_captured := - interval_seconds * fps;
     screenshots_taken := 0 |}.

(** Lines 89-102: the value of [should_capture], with the branch that
    set it.  [frame_count % 0] raises. *)
Definition should_capture (st : State) (gray : Gray) : exn + option Trigger :=
  match prev_frame st with
  | None => inr None
  | Some prev =>
      match absdiff gray prev with
      | None => inl CvError
      | Some diff =>
          let mean_diff := np_mean diff in
          if gt mean_diff scene_threshold
             && (frame_count st - last_captured st >? fps * 5)
          then inr (Some SceneChange)
          else if interval_seconds * fps =? 0 then inl ZeroDivisionError
          else if frame_count st mod (interval_seconds * fps) =? 0
          then inr (Some Interval)
          else inr None
      end
  end.

(** Lines 106-110. [int(frame_count / fps)] truncates towards zero. *)
Definition timestamp_of (n : Z) : Z * Z * Z :=
  let seconds := Z.quot n fps in
  (seconds / 3600, (seconds mod 3600) / 60, seconds mod 60).

(** Lines 104-127. *)
Definition capture (st : State) (fr : Frame) (t : Trigger) : State * Capture :=
  let c := {| sequence_number := screenshots_taken st;
              frame_index := frame_count st;
              timestamp := timestamp_of (frame_count st);
              trigger := t;
              written := imwrite fr |} in
  let taken := match imwrite fr with
               | WriteOk => screenshots_taken st + 1
               | WriteFailed | WriteRaised => screenshots_taken st
               end in
  ({| prev_frame := prev_frame st;
      frame_count := frame_count st;
      last_captured := frame_count st;
      screenshots_taken := taken |}, c).

(** Lines 129-130. *)
Definition advance (st : State) (gray : Gray) : State :=
  {| prev_frame := Some gray;
     frame_count := frame_count st + 1;
     last_captured := last_captured st;
     screenshots_taken := screenshots_taken st |}.

(** One iteration of the [while True:] body for a frame that was read. *)
Definition step (st : State) (fr : Frame) : exn + (State * option Capture) :=
  match cvtColor fr with
  | None => inr (st, None)                       (* except: continue *)
  | Some gray =>
      match should_capture st gray with
      | inl e => inl e
      | inr None => inr (advance st gray, None)
      | inr (Some t) =>
          let (st', c) := capture st fr t in
          inr (advance st' gray, Some c)
      end
  end.

(** What a run of the loop leaves behind. *)
Record Run := {
  emitted : list Capture;
  final : State;
  raised : option exn
}.

Definition emit (oc : option Capture) (r : Run) : Run :=
  {| emitted := match oc with Some c => c :: emitted r | None => emitted r end;
     final := final r;
     raised := raised r |}.

(** The [while True:] loop over the frames [cap.read()] delivers. *)
Fixpoint loop (st : State) (frames : list Frame) : Run :=
  match frames with
  | [] => {| emitted := []; final := st; raised := None |}
  | fr :: rest =>
      match step st fr with
      | inl e => {| emitted := []; final := st; raised := Some e |}
      | inr (st', oc) => emit oc (loop st' rest)
      end
  end.

End Loop.

(** The video file as [extract_frames] sees it. *)
Record Video := {
  path_exists : bool;
  is_opened : bool;
  video_fps : Z;
  frames : list Frame
}.

(** [extract_frames]: the returned count, or the exception; together
    with the captures made.  Line 69 divides by [fps]. *)
Definition extract_frames (v : Video) (interval_seconds : Z) (scene_threshold : Q)
  : list Capture * (exn + Z) :=
  if negb (path_exists v) then ([], inr 0)
  else if negb (is_opened v) then ([], inr 0)
  else if video_fps v =? 0 then ([], inl ZeroDivisionError)
  else
    let r := loop (video_fps v) interval_seconds scene_threshold
                  (init (video_fps v) interval_seconds) (frames v) in
    (emitted r,
     match raised r with
     | Some e => inl e
     | None => inr (screenshots_taken (final r))
     end).

(** [process]: [download] is the result of [download_video];
    [extract_frames] runs with its default interval and threshold. *)
Definition process (download : option Video) : list Capture * (exn + bool) :=
  match download with
  | None => ([], inr false)
  | Some v =>
      let (captures, num_screenshots) := extract_frames v 30 (30 # 1) in
      (captures,
       match num_screenshots with
       | inl e => inl e
       | inr n => inr (n >? 0)
       end)
  end.

End Main.

(** ** src/at_time.py: the timestamp-driven extractor *)

Module AtTime.
Import Cv.

(** The video file as [get_screenshot] sees it.  [read_at n] is
    [cap.set(CAP_PROP_POS_FRAMES, n)] followed by [cap.read()];
    [None] when [ret] is false. *)
Record Video := {
  path_exists : bool;
  is_opened : bool;
  fps : Z;
  total_frames : Z;
  read_at : Z -> option Frame
}.

(** The message [get_screenshot] ends on. *)
Inductive Outcome :=
| VideoNotFound
| CouldNotOpen
| BeyondDuration
| CouldNotRead (frame_number : Z)
| Wrote (frame_number : Z) (r : imwrite_result).

(** The boolean [get_screenshot] returns. *)
Definition success (o : Outcome) : bool :=
  match o with
  | Wrote _ WriteOk => true
  | _ => false
  end.

(** Lines 75-76; [int] of an integer product is the product. *)
Definition frame_number (fps minutes seconds : Z) : Z :=
  let timestamp_seconds := minutes * 60 + seconds in
  timestamp_seconds * fps.

(** Lines 78-81: [None] is the "beyond video duration" exit. *)
Definition resolve (fps total_frames minutes seconds : Z) : option Z :=
  let n := frame_number fps minutes seconds in
  if n >=? total_frames then None else Some n.

(** Line 68 divides by [fps]. *)
Definition get_screenshot (v : Video) (minutes seconds : Z) : exn + Outcome :=
  if negb (path_exists v) then inr VideoNotFound
  else if negb (is_opened v) then inr CouldNotOpen
  else if fps v =? 0 then inl ZeroDivisionError
  else
    match resolve (fps v) (total_frames v) minutes seconds with
    | None => inr BeyondDuration
    | Some n =>
        match read_at v n with
        | Some frame => inr (Wrote n (imwrite frame))
        | None => inr (CouldNotRead n)
        end
    end.

(** Lines 126-130: the outcome per visited timestamp and the final
    value of [successful], or the exception that ended the loop. *)
Fixpoint for_timestamps (v : Video) (timestamps : list (Z * Z)) (successful : Z)
  : list Outcome * (exn + Z) :=
  match timestamps with
  | [] => ([], inr successful)
  | (minutes, seconds) :: rest =>
      match get_screenshot v minutes seconds with
      | inl e => ([], inl e)
      | inr o =>
          let (os, r) := for_timestamps v rest
                           (if success o then successful + 1 else successful) in
          (o :: os, r)
      end
  end.

(** [capture_timestamps]; [download] is the result of
    [download_video]. *)
Definition capture_timestamps (download : option Video) (timestamps : list (Z * Z))
  : list Outcome * (exn + bool) :=
  match download with
  | None => ([], inr false)
  | Some v =>
      let (os, r) := for_timestamps v timestamps 0 in
      (os, match r with
           | inl e => inl e
           | inr successful => inr (successful >? 0)
           end)
  end.

End AtTime.

(** ** The file names of the screenshots *)

Module Names.
Import Ascii String.
Local Open Scope string_scope.

(** The decimal digits of a natural number. *)
Definition digits (n : N) : string :=
  DecimalString.NilEmpty.string_of_uint (N.to_uint n).

Fixpoint zeros (k : nat) : string :=
  match k with
  | O => ""
  | S k' => String "0" (zeros k')
  end.

Definition zfill (width : nat) (s : string) : string :=
  zeros (width - length s) ++ s.

(** [format(n, "0<width>d")]: the sign, then the digits padded with
    zeros up to [width] characters in all. *)
Definition format_d (width : nat) (n : Z) : string :=
  if (n <? 0)%Z
  then String "-" (zfill (width - 1) (digits (Z.abs_N n)))
  else zfill width (digits (Z.to_N n)).

(** main.py, lines 110 and 113: the name joined to [output_dir]. *)
Definition screenshot_name (c : Main.Capture) : string :=
  let '(hours, minutes, secs) := Main.timestamp c in
  "screenshot_" ++ format_d 3 (Main.sequence_number c) ++ "_"
  ++ format_d 2 hours ++ "-" ++ format_d 2 minutes ++ "-" ++ format_d 2 secs
  ++ ".png".

(** at_time.py, line 91: the name joined to [output_dir]. *)
Definition timestamp_name (minutes seconds : Z) : string :=
  "screenshot_" ++ format_d 2 minutes ++ "-" ++ format_d 2 seconds ++ ".png".

(** The characters of a decimal numeral. *)
Definition is_digit (a : ascii) : bool :=
  match a with
  | "0" | "1" | "2" | "3" | "4" | "5" | "6" | "7" | "8" | "9" => true
  | _ => false
  end%char.

Fixpoint all_digits (s : string) : bool :=
  match s with
  | "" => true
  | String a s' => is_digit a && all_digits s'
  end.

(** The number a string of digits denotes. *)
Definition number_of (s : string) : option N :=
  option_map N.of_uint (DecimalString.NilEmpty.uint_of_string s).

End Names.

(** ** Vocabulary of the properties *)

Import Cv.

(** [ceil(n / d)] for a positive [d]. *)
Definition ceil_div (n d : Z) : Z := (n + d - 1) / d.

(** The frames whose grayscale conversion succeeds, and their
    projections. *)
Definition converts (fr : Frame) : bool :=
  match cvtColor fr with Some _ => true | None => false end.

Fixpoint grays (fs : list Frame) : list Gray :=
  match fs with
  | [] => []
  | fr :: rest =>
      match cvtColor fr with
      | Some g => g :: grays rest
      | None => grays rest
      end
  end.

Definition saves (fr : Frame) : bool :=
  match imwrite fr with WriteOk => true | _ => false end.

(** The mean difference of [g] against [prev] is defined and does not
    exceed the threshold. *)
Definition calm (t : Q) (prev g : Gray) : bool :=
  match absdiff g prev with
  | Some diff => negb (gt (np_mean diff) t)
  | None => false
  end.

Fixpoint calm_after (t : Q) (prev : Gray) (gs : list Gray) : bool :=
  match gs with
  | [] => true
  | g :: rest => calm t prev g && calm_after t g rest
  end.

(** No scene change: every consecutive pair is calm. *)
Definition no_scene_change (t : Q) (gs : list Gray) : bool :=
  match gs with
  | [] => true
  | g :: rest => calm_after t g rest
  end.

(** Number of captures made at frame index [i]. *)
Definition captures_at (i : Z) (cs : list Main.Capture) : nat :=
  length (filter (fun c => Main.frame_index c =? i) cs).

(** A video file that exists and opens. *)
Definition video (fps : Z) (fs : list Frame) : Main.Video :=
  {| Main.path_exists := true; Main.is_opened := true;
     Main.video_fps := fps; Main.frames := fs |}.

(** A frame whose [n] pixels all have luminance [v]; saving it works. *)
Definition flat (v : Z) (n : nat) : Frame :=
  {| cvtColor := Some (repeat v n); imwrite := WriteOk |}.

(** The states the loop can be in at the top of an iteration. *)
Inductive reachable (fps k : Z) (t : Q) : Main.State -> Prop :=
| reach_init : reachable fps k t (Main.init fps k)
| reach_step st fr st' oc :
    reachable fps k t st ->
    Main.step fps k t st fr = inr (st', oc) ->
    reachable fps k t st'.

(** The indices of a run of captures: increasing from [lo], and a
    scene-change capture is more than [fps * 5] past [bound], the
    index of the capture before it. *)
Fixpoint chained (fps bound lo : Z) (cs : list Main.Capture) : Prop :=
  match cs with
  | [] => True
  | c :: rest =>
      lo <= Main.frame_index c /\
      (Main.trigger c = Main.SceneChange -> Main.frame_index c - bound > fps * 5) /\
      chained fps (Main.frame_index c) (Main.frame_index c + 1) rest
  end.

(** The three ways an iteration ends without an exception. *)
Inductive step_spec (fps k : Z) (t : Q) (st : Main.State) (fr : Frame)
  : Main.State -> option Main.Capture -> Prop :=
| step_skip :
    cvtColor fr = None -> step_spec fps k t st fr st None
| step_pass g :
    cvtColor fr = Some g -> Main.should_capture fps k t st g = inr None ->
    step_spec fps k t st fr (Main.advance st g) None
| step_take g tr :
    cvtColor fr = Some g -> Main.should_capture fps k t st g = inr (Some tr) ->
    step_spec fps k t st fr
              (Main.advance (fst (Main.capture fps st fr tr)) g)
              (Some (snd (Main.capture fps st fr tr))).

(** The state kept between iterations. *)
Definition settled (fps k : Z) (st : Main.State) : Prop :=
  0 <= Main.frame_count st /\
  (Main.prev_frame st <> None -> 1 <= Main.frame_count st) /\
  (Main.last_captured st < Main.frame_count st \/
   Main.last_captured st = - k * fps).

(** The [n] consecutive integers from [a]. *)
Fixpoint upfrom (a : Z) (n : nat) : list Z :=
  match n with
  | O => []
  | S n' => a :: upfrom (a + 1) n'
  end.

(** The captures whose file was written. *)
Definition saved (cs : list Main.Capture) : list Main.Capture :=
  filter (fun c => match Main.written c with WriteOk => true | _ => false end) cs.

(** Every image of [gs] has [n] pixels. *)
Definition same_shape (n : nat) (gs : list Gray) : bool :=
  forallb (fun g => Nat.eqb (length g) n) gs.

(** Three identical frames. *)
Definition three_still_frames : list Frame := repeat (flat 7 4) 3.

(** The synthetic stream of the scene-driven example: 50 frames of
    luminance 0, then 50 frames of luminance 255, [n] pixels each. *)
Definition black_then_white (n : nat) : list Frame :=
  repeat (flat 0 n) 50 ++ repeat (flat 255 n) 50.

(** A ten-second, 300-frame video at 30 fps; every frame reads and
    saves. *)
Definition ten_seconds : AtTime.Video :=
  {| AtTime.path_exists := true; AtTime.is_opened := true;
     AtTime.fps := 30; AtTime.total_frames := 300;
     AtTime.read_at := fun n =>
       if (0 <=? n) && (n <? 300) then Some (flat 0 4) else None |}.

(** ** Facts about one iteration and about the loop *)

Section LoopFacts.

Variables (fps k : Z) (t : Q).

Let step := Main.step fps k t.
Let loop := Main.loop fps k t.
Let should_capture := Main.should_capture fps k t.
Let capture := Main.capture fps.

Lemma step_inv st fr st' oc :
  step st fr = inr (st', oc) -> step_spec fps k t st fr st' oc.
Proof.
  unfold step, Main.step.
  destruct (cvtColor fr) as [g|] eqn:Eg.
  - destruct (Main.should_capture fps k t st g) as [e|[tr|]] eqn:Es.
    + discriminate.
    + cbn. intros H. injection H as <- <-. now apply (step_take fps k t st fr g tr).
    + intros H. injection H as <- <-. now apply step_pass.
  - intros H. injection H as <- <-. now apply step_skip.
Qed.

(** What [should_capture] has checked when it answers. *)
Lemma scene_inv st g :
  should_capture st g = inr (Some Main.SceneChange) ->
  Main.frame_count st - Main.last_captured st > fps * 5.
Proof.
  unfold should_capture, Main.should_capture.
  destruct (Main.prev_frame st) as [p|]; [|discriminate].
  destruct (absdiff g p) as [d|]; [|discriminate].
  destruct (gt (np_mean d) t && _) eqn:E.
  - intros _. apply andb_true_iff in E as [_ E]. lia.
  - destruct (k * fps =? 0); [discriminate|].
    destruct (_ mod _ =? 0); discriminate.
Qed.

Lemma interval_inv st g :
  should_capture st g = inr (Some Main.Interval) ->
  Main.prev_frame st <> None /\ k * fps <> 0 /\
  Main.frame_count st mod (k * fps) = 0.
Proof.
  unfold should_capture, Main.should_capture.
  destruct (Main.prev_frame st) as [p|]; [|discriminate].
  destruct (absdiff g p) as [d|]; [|discriminate].
  destruct (gt (np_mean d) t && _); [discriminate|].
  destruct (k * fps =? 0) eqn:E0; [discriminate|].
  destruct (_ mod _ =? 0) eqn:Em; [|discriminate].
  intros _. repeat split; [discriminate|lia|lia].
Qed.

Lemma chained_lower cs : forall b lo lo',
  lo' <= lo -> chained fps b lo cs -> chained fps b lo' cs.
Proof.
  destruct cs as [|c cs]; cbn; [trivial|].
  intros b lo lo' Hle (H1 & H2 & H3). repeat split; [lia|assumption|assumption].
Qed.

(** Every run of the loop emits a chained sequence of captures. *)
Lemma loop_chained fs : forall st,
  chained fps (Main.last_captured st) (Main.frame_count st)
          (Main.emitted (loop st fs)).
Proof.
  induction fs as [|fr fs IH]; intros st; cbn; [trivial|].
  fold step. destruct (step st fr) as [e|[st' oc]] eqn:Es; cbn; [trivial|].
  apply step_inv in Es. destruct Es as [Hc|g Hc Hs|g tr Hc Hs].
  - apply IH.
  - apply chained_lower with (lo := Main.frame_count st + 1); [lia|].
    apply (IH (Main.advance st g)).
  - cbn. repeat split; [lia| |].
    + intros ->. now apply scene_inv with g.
    + apply (IH (Main.advance (fst (capture st fr tr)) g)).
Qed.

(** In a chained sequence every scene-change capture is more than
    [fps * 5] past the bound, when the bound is below the sequence. *)
Lemma chained_gap cs : forall b lo c,
  chained fps b lo cs -> b < lo -> In c cs ->
  lo <= Main.frame_index c /\
  (Main.trigger c = Main.SceneChange -> Main.frame_index c - b > fps * 5).
Proof.
  induction cs as [|h cs IH]; cbn; intros b lo c Hch Hb Hin;
    [contradiction|].
  destruct Hch as (H1 & H2 & H3).
  destruct Hin as [->|Hin]; [split; [lia|assumption]|].
  destruct (IH _ _ c H3 ltac:(lia) Hin) as [Hlo Hg].
  split; [lia|]. intros Hs. specialize (Hg Hs). lia.
Qed.

Lemma chained_tail l1 : forall b lo c rest,
  chained fps b lo (l1 ++ c :: rest) ->
  chained fps (Main.frame_index c) (Main.frame_index c + 1) rest.
Proof.
  induction l1 as [|h l1 IH]; cbn; intros b lo c rest (H1 & H2 & H3).
  - assumption.
  - now apply IH in H3.
Qed.

Lemma loop_app fs1 : forall fs2 st,
  Main.raised (loop st fs1) = None ->
  loop st (fs1 ++ fs2) =
  {| Main.emitted := Main.emitted (loop st fs1)
                     ++ Main.emitted (loop (Main.final (loop st fs1)) fs2);
     Main.final := Main.final (loop (Main.final (loop st fs1)) fs2);
     Main.raised := Main.raised (loop (Main.final (loop st fs1)) fs2) |}.
Proof.
  induction fs1 as [|fr fs1 IH]; intros fs2 st; cbn.
  - intros _. now destruct (loop st fs2).
  - fold step. destruct (step st fr) as [e|[st' oc]]; cbn; [discriminate|].
    intros Hr. fold loop. rewrite (IH fs2 st' Hr).
    unfold Main.emit. cbn. now destruct oc.
Qed.

(** Captures carry the frame counts the loop went through. *)
Lemma loop_bounds fs : forall st,
  Main.frame_count st <= Main.frame_count (Main.final (loop st fs)) /\
  forall c, In c (Main.emitted (loop st fs)) ->
    Main.frame_count st <= Main.frame_index c
    < Main.frame_count (Main.final (loop st fs)).
Proof.
  induction fs as [|fr fs IH]; intros st; cbn.
  - split; [lia|contradiction].
  - fold step. destruct (step st fr) as [e|[st' oc]] eqn:Es; cbn.
    + split; [lia|contradiction].
    + fold loop. destruct (IH st') as [Hle Hin].
      apply step_inv in Es. destruct Es as [Hc|g Hc Hs|g tr Hc Hs]; cbn in *.
      * split; [assumption|]. intros c H. now apply Hin.
      * split; [lia|]. intros c H. apply Hin in H. lia.
      * split; [lia|]. intros c [<-|H]; [cbn; lia|]. apply Hin in H. lia.
Qed.

Lemma step_settled st fr st' oc :
  settled fps k st -> step st fr = inr (st', oc) -> settled fps k st'.
Proof.
  intros (H0 & Hp & Hl) Es. apply step_inv in Es.
  destruct Es as [Hc|g Hc Hs|g tr Hc Hs]; unfold settled; cbn.
  - now repeat split.
  - repeat split; [lia|lia|]. destruct Hl; [left; lia|now right].
  - repeat split; [lia|lia|left; lia].
Qed.

Lemma reachable_settled st : reachable fps k t st -> settled fps k st.
Proof.
  induction 1 as [|st fr st' oc _ IH Es].
  - repeat split; cbn; [lia|congruence|now right].
  - now apply (step_settled st fr st' oc).
Qed.

Lemma loop_reachable fs : forall st,
  reachable fps k t st -> reachable fps k t (Main.final (loop st fs)).
Proof.
  induction fs as [|fr fs IH]; intros st Hr; cbn; [assumption|].
  fold step. destruct (step st fr) as [e|[st' oc]] eqn:Es; cbn; [assumption|].
  apply IH. now apply (reach_step fps k t st fr st' oc).
Qed.

(** A positive multiple of [d] is at least [|d|]. *)
Lemma multiple_ge n d : 1 <= n -> d <> 0 -> n mod d = 0 -> - d <= n.
Proof.
  intros Hn Hd Hm.
  assert (E : n = d * (n / d)) by (apply Z.div_exact; assumption).
  destruct (Z.lt_trichotomy d 0) as [Hneg|[->|Hpos]]; [|lia|lia].
  assert (n / d <= -1) by nia. nia.
Qed.

Lemma step_last_captured st fr st' oc :
  0 < fps -> settled fps k st -> step st fr = inr (st', oc) ->
  Main.last_captured st' = Main.last_captured st \/
  Main.last_captured st < Main.last_captured st'.
Proof.
  intros Hf (_ & Hp & Hl) Es. apply step_inv in Es.
  destruct Es as [Hc|g Hc Hs|g tr Hc Hs]; cbn; [now left|now left|].
  destruct tr.
  - apply scene_inv in Hs. right. lia.
  - apply interval_inv in Hs as (Hprev & Hkf & Hmod).
    specialize (Hp Hprev). destruct Hl as [Hl|Hl]; [right; lia|].
    pose proof (multiple_ge _ _ Hp Hkf Hmod). lia.
Qed.

(** [screenshots_taken] counts the captures that were written. *)
Lemma loop_taken fs : forall st,
  Main.screenshots_taken (Main.final (loop st fs)) =
  Main.screenshots_taken st
  + Z.of_nat (length (saved (Main.emitted (loop st fs)))).
Proof.
  induction fs as [|fr fs IH]; intros st; cbn; [lia|].
  fold step. destruct (step st fr) as [e|[st' oc]] eqn:Es; cbn; [lia|].
  fold loop. rewrite (IH st'). generalize (Main.emitted (loop st' fs)) as l.
  intros l. apply step_inv in Es. unfold saved.
  destruct Es as [Hc|g Hc Hs|g tr Hc Hs]; cbn; [reflexivity|reflexivity|].
  destruct (imwrite fr); cbn [length]; lia.
Qed.

Lemma loop_all_saved fs : forall st,
  forallb saves fs = true ->
  saved (Main.emitted (loop st fs)) = Main.emitted (loop st fs).
Proof.
  induction fs as [|fr fs IH]; intros st; cbn; [reflexivity|].
  intros H. apply andb_true_iff in H as [Hs Hfs].
  fold step. destruct (step st fr) as [e|[st' oc]] eqn:Es; cbn; [reflexivity|].
  fold loop. specialize (IH st' Hfs). revert IH.
  generalize (Main.emitted (loop st' fs)) as l. intros l IH.
  apply step_inv in Es. unfold saved in *.
  destruct Es as [Hc|g Hc Hd|g tr Hc Hd]; cbn; [assumption|assumption|].
  unfold saves in Hs. destruct (imwrite fr); try discriminate.
  now rewrite IH.
Qed.

(** On a calm frame only the interval branch can fire. *)
Lemma calm_should_capture st p g :
  k * fps <> 0 -> Main.prev_frame st = Some p -> calm t p g = true ->
  should_capture st g =
  inr (if Main.frame_count st mod (k * fps) =? 0
       then Some Main.Interval else None).
Proof.
  intros Hkf Hp Hc. unfold should_capture, Main.should_capture, calm in *.
  rewrite Hp. destruct (absdiff g p) as [d|]; [|discriminate].
  apply negb_true_iff in Hc. rewrite Hc. cbn.
  destruct (Z.eqb_spec (k * fps) 0); [contradiction|].
  now destruct (_ mod _ =? 0).
Qed.

(** A calm stretch is captured exactly at the multiples of
    [interval_seconds * fps]. *)
Lemma loop_calm fs : forall st p,
  k * fps <> 0 -> Main.prev_frame st = Some p ->
  forallb converts fs = true -> calm_after t p (grays fs) = true ->
  Main.raised (loop st fs) = None /\
  map Main.frame_index (Main.emitted (loop st fs)) =
  filter (fun i => i mod (k * fps) =? 0)
         (upfrom (Main.frame_count st) (length fs)).
Proof.
  induction fs as [|fr fs IH]; intros st p Hkf Hp Hconv Hcalm; cbn;
    [now split|].
  cbn in Hconv, Hcalm. unfold converts in Hconv. fold step.
  unfold step, Main.step.
  destruct (cvtColor fr) as [g|]; [|discriminate]. cbn in Hconv, Hcalm.
  apply andb_true_iff in Hcalm as [Hg Hrest].
  fold should_capture. rewrite (calm_should_capture st p g Hkf Hp Hg).
  destruct (Main.frame_count st mod (k * fps) =? 0) eqn:Em; cbn; fold loop.
  - destruct (IH (Main.advance
                    (fst (capture st fr Main.Interval)) g) g Hkf eq_refl
                 Hconv Hrest) as [Hr Hi].
    split; [assumption|]. cbn in Hi. now rewrite Hi.
  - destruct (IH (Main.advance st g) g Hkf eq_refl Hconv Hrest) as [Hr Hi].
    split; [assumption|]. exact Hi.
Qed.

End LoopFacts.

(** ** Multiples of the interval *)

Lemma upfrom_snoc n : forall a,
  upfrom a (S n) = upfrom a n ++ [a + Z.of_nat n].
Proof.
  induction n as [|n IH]; intros a.
  - cbn. now rewrite Z.add_0_r.
  - change (upfrom a (S (S n))) with (a :: upfrom (a + 1) (S n)).
    rewrite IH. cbn [upfrom app]. do 3 f_equal. lia.
Qed.

Lemma div_succ_multiple n d :
  0 < d -> 0 <= n -> (n + 1) mod d = 0 -> (n + 1) / d = n / d + 1.
Proof.
  intros Hd Hn Hm.
  assert (E : n + 1 = d * ((n + 1) / d)) by (apply Z.div_exact; lia).
  assert (H : n / d = (n + 1) / d - 1).
  { symmetry. apply Z.div_unique with (r := d - 1); [lia|nia]. }
  lia.
Qed.

Lemma div_succ_other n d :
  0 < d -> 0 <= n -> (n + 1) mod d <> 0 -> (n + 1) / d = n / d.
Proof.
  intros Hd Hn Hm.
  pose proof (Z.mod_pos_bound (n + 1) d Hd).
  apply Z.div_unique with (r := (n + 1) mod d - 1); [lia|].
  pose proof (Z.div_mod (n + 1) d ltac:(lia)). lia.
Qed.

(** The multiples of [d] among [1 .. n], listed. *)
Lemma multiples_upto d n :
  0 < d ->
  filter (fun i => i mod d =? 0) (upfrom 1 n) =
  map (fun j => Z.of_nat j * d) (seq 1 (Z.to_nat (Z.of_nat n / d))).
Proof.
  intros Hd. induction n as [|n IH].
  - change (Z.of_nat 0) with 0. now rewrite Z.div_0_l by lia.
  - rewrite upfrom_snoc, filter_app, IH. cbn [filter].
    replace (Z.of_nat (S n)) with (Z.of_nat n + 1) by lia.
    replace (1 + Z.of_nat n) with (Z.of_nat n + 1) by lia.
    assert (Hq : 0 <= Z.of_nat n / d) by (apply Z.div_pos; lia).
    destruct (Z.eqb_spec ((Z.of_nat n + 1) mod d) 0) as [Hm|Hm].
    + rewrite (div_succ_multiple (Z.of_nat n) d Hd ltac:(lia) Hm).
      rewrite Z2Nat.inj_add by lia. change (Z.to_nat 1) with 1%nat.
      rewrite Nat.add_1_r, seq_S, map_app. cbn [map]. do 2 f_equal.
      pose proof (div_succ_multiple (Z.of_nat n) d Hd ltac:(lia) Hm) as E.
      pose proof (Z.div_exact (Z.of_nat n + 1) d ltac:(lia)) as [_ X].
      specialize (X Hm). rewrite Nat2Z.inj_add, Z2Nat.id by lia.
      change (Z.of_nat 1) with 1. nia.
    + rewrite (div_succ_other (Z.of_nat n) d Hd ltac:(lia) Hm). now rewrite app_nil_r.
Qed.

(** ** Frames of one luminance *)

Lemma absdiff_repeat a b n :
  absdiff (repeat a n) (repeat b n) = Some (repeat (Z.abs (a - b)) n).
Proof.
  unfold absdiff. rewrite !repeat_length, Nat.eqb_refl. f_equal.
  induction n as [|n IH]; cbn; [reflexivity|now rewrite IH].
Qed.

Lemma total_repeat c n : total (repeat c n) = c * Z.of_nat n.
Proof.
  induction n as [|n IH]; [cbn; lia|].
  cbn [repeat total fold_right]. fold (total (repeat c n)). rewrite IH. lia.
Qed.

(** The mean of [n > 0] samples [c] exceeds [t] exactly when [c] does. *)
Lemma gt_mean_repeat c n (t : Q) :
  n <> 0%nat ->
  gt (np_mean (repeat c n)) t = negb (Qle_bool (inject_Z c) t).
Proof.
  intros Hn. destruct n as [|n]; [contradiction|].
  change (repeat c (S n)) with (c :: repeat c n) at 1.
  cbn [np_mean gt]. f_equal.
  change (c :: repeat c n) with (repeat c (S n)).
  rewrite total_repeat, repeat_length.
  apply eq_true_iff_eq. rewrite !Qle_bool_iff.
  unfold Qle, inject_Z. cbn [Qnum Qden].
  assert (Hp : Z.pos (Pos.of_nat (S n)) = Z.of_nat (S n)).
  { rewrite <- (Nat2Pos.id (S n)) at 2 by discriminate.
    now rewrite positive_nat_Z. }
  rewrite Hp. nia.
Qed.

Lemma calm_repeat a b n (t : Q) :
  n <> 0%nat ->
  calm t (repeat b n) (repeat a n) = Qle_bool (inject_Z (Z.abs (a - b))) t.
Proof.
  intros Hn. unfold calm. rewrite absdiff_repeat, gt_mean_repeat by assumption.
  apply negb_involutive.
Qed.

(** A stretch of identical frames away from the interval boundaries
    only advances the frame counter. *)
Lemma loop_still fps k t fr g n : forall st,
  cvtColor fr = Some g -> Main.prev_frame st = Some g -> calm t g g = true ->
  k * fps <> 0 ->
  (forall i, Main.frame_count st <= i < Main.frame_count st + Z.of_nat n ->
             i mod (k * fps) <> 0) ->
  Main.loop fps k t st (repeat fr n) =
  {| Main.emitted := [];
     Main.final := {| Main.prev_frame := Some g;
                      Main.frame_count := Main.frame_count st + Z.of_nat n;
                      Main.last_captured := Main.last_captured st;
                      Main.screenshots_taken := Main.screenshots_taken st |};
     Main.raised := None |}.
Proof.
  induction n as [|n IH]; intros st Hc Hp Hcalm Hkf Hno.
  - cbn. rewrite Z.add_0_r, <- Hp. now destruct st.
  - cbn [repeat Main.loop]. unfold Main.step. rewrite Hc.
    rewrite (calm_should_capture fps k t st g g Hkf Hp Hcalm).
    destruct (Z.eqb_spec (Main.frame_count st mod (k * fps)) 0) as [E|E].
    + exfalso. apply (Hno (Main.frame_count st)); [lia|assumption].
    + rewrite (IH (Main.advance st g) Hc eq_refl Hcalm Hkf).
      * unfold Main.emit. cbn -[Z.of_nat]. do 2 f_equal. lia.
      * cbn -[Z.of_nat]. intros i Hi. apply Hno. lia.
Qed.

(** ** The properties of the scene-driven extractor *)

Lemma ceil_div_pred n d :
  0 < d -> ceil_div (n + 1) d - 1 = n / d.
Proof.
  intros Hd. unfold ceil_div.
  replace (n + 1 + d - 1) with (n + 1 * d) by lia.
  rewrite Z.div_add by lia. lia.
Qed.

(** C1, as the code has it: on a stream of N frames that all convert
    and show no scene change, with [interval_seconds = k >= 1] and
    [fps = f >= 1], frame 0 only seeds the history, so the captures
    are at the frame indices [k*f, 2*k*f, ...] below N: there are
    [ceil(N / (k*f)) - 1] of them (none when N = 0), and that is the
    returned count when every write succeeds. *)
Theorem quiet_stream_interval_captures (fs : list Frame) (k f : Z) (t : Q) :
  0 < k -> 0 < f ->
  forallb converts fs = true ->
  no_scene_change t (grays fs) = true ->
  map Main.frame_index (fst (Main.extract_frames (video f fs) k t)) =
  map (fun j => Z.of_nat j * (k * f))
      (seq 1 (Z.to_nat (if Z.of_nat (length fs) =? 0 then 0
                        else ceil_div (Z.of_nat (length fs)) (k * f) - 1))) /\
  (forallb saves fs = true ->
   snd (Main.extract_frames (video f fs) k t) =
   inr (if Z.of_nat (length fs) =? 0 then 0
        else ceil_div (Z.of_nat (length fs)) (k * f) - 1)).
Proof.
  intros Hk Hf Hconv Hquiet.
  assert (Hkf : 0 < k * f) by nia.
  unfold Main.extract_frames, video. cbn [Main.path_exists Main.is_opened
    Main.video_fps Main.frames negb fst snd].
  destruct (Z.eqb_spec f 0) as [->|_]; [lia|].
  destruct fs as [|fr rest]; [cbn; split; reflexivity|].
  cbn [length]. rewrite Nat2Z.inj_succ, <- Z.add_1_r.
  destruct (Z.eqb_spec (Z.of_nat (length rest) + 1) 0) as [E|_]; [lia|].
  rewrite (ceil_div_pred _ _ Hkf).
  cbn [forallb] in Hconv. apply andb_true_iff in Hconv as [Hc0 Hconv].
  unfold converts in Hc0. cbn [grays] in Hquiet.
  cbn [Main.loop]. unfold Main.step.
  destruct (cvtColor fr) as [g0|]; [|discriminate].
  cbn [Main.should_capture Main.init Main.prev_frame] .
  cbn [no_scene_change] in Hquiet.
  set (st1 := Main.advance _ g0).
  destruct (loop_calm f k t rest st1 g0 ltac:(lia) eq_refl Hconv Hquiet)
    as [Hr Hi].
  assert (Hidx : map Main.frame_index (Main.emitted (Main.loop f k t st1 rest))
                 = map (fun j => Z.of_nat j * (k * f))
                       (seq 1 (Z.to_nat (Z.of_nat (length rest) / (k * f))))).
  { rewrite Hi. subst st1. cbn [Main.advance Main.frame_count Main.init].
    change (0 + 1) with 1. now apply multiples_upto. }
  unfold Main.emit. cbn [Main.emitted Main.final Main.raised fst snd].
  split; [exact Hidx|].
  intros Hsave. cbn [forallb] in Hsave. apply andb_true_iff in Hsave as [_ Hsave].
  rewrite Hr, loop_taken, (loop_all_saved f k t rest st1 Hsave).
  f_equal. apply (f_equal (@length Z)) in Hidx.
  rewrite !length_map, length_seq in Hidx. rewrite Hidx.
  subst st1. cbn [Main.advance Main.screenshots_taken Main.init].
  rewrite Z2Nat.id by (apply Z.div_pos; lia). lia.
Qed.

(** C1 at a concrete stream: one frame of history, then a capture at
    frame 2 and nowhere else. *)
Lemma quiet_stream_interval_captures_witness :
  map Main.frame_index
      (fst (Main.extract_frames (video 2 three_still_frames) 1 (30 # 1))) = [2] /\
  snd (Main.extract_frames (video 2 three_still_frames) 1 (30 # 1)) = inr 1.
Proof.
  destruct (quiet_stream_interval_captures three_still_frames 1 2 (30 # 1))
    as [Hi Hc]; [lia|lia|reflexivity|reflexivity|].
  split; [exact Hi|exact (Hc eq_refl)].
Defined.

(** C1 as stated fails: three identical frames at [fps = 2],
    [interval_seconds = 1] show no scene change and
    [ceil(3 / 2) = 2], but frame 0 is not captured: one capture, at
    frame 2. *)
Lemma quiet_stream_counterexample :
  forallb converts three_still_frames = true /\
  forallb saves three_still_frames = true /\
  no_scene_change (30 # 1) (grays three_still_frames) = true /\
  ceil_div (Z.of_nat (length three_still_frames)) (1 * 2) = 2 /\
  snd (Main.extract_frames (video 2 three_still_frames) 1 (30 # 1)) = inr 1 /\
  map Main.frame_index
      (fst (Main.extract_frames (video 2 three_still_frames) 1 (30 # 1))) = [2] /\
  snd (Main.extract_frames (video 2 three_still_frames) 1 (30 # 1))
  <> inr (ceil_div (Z.of_nat (length three_still_frames)) (1 * 2)) /\
  ~ In 0 (map Main.frame_index
              (fst (Main.extract_frames (video 2 three_still_frames) 1 (30 # 1)))).
Proof.
  vm_compute. repeat split; try discriminate.
  intros [H|[]]. discriminate.
Qed.

(** C2: in any run, whatever the stream and the parameters, two
    captures made by the scene-change branch are more than [fps * 5]
    frames apart. *)
Theorem scene_captures_cooldown (v : Main.Video) (k : Z) (t : Q)
        (l1 l2 l3 : list Main.Capture) (c1 c2 : Main.Capture) :
  fst (Main.extract_frames v k t) = l1 ++ c1 :: l2 ++ c2 :: l3 ->
  Main.trigger c1 = Main.SceneChange ->
  Main.trigger c2 = Main.SceneChange ->
  Main.frame_index c2 - Main.frame_index c1 > Main.video_fps v * 5.
Proof.
  unfold Main.extract_frames.
  destruct (negb (Main.path_exists v)); [now destruct l1|].
  destruct (negb (Main.is_opened v)); [now destruct l1|].
  destruct (Main.video_fps v =? 0); [now destruct l1|].
  cbn [fst]. intros E _ H2.
  pose proof (loop_chained (Main.video_fps v) k t (Main.frames v)
                (Main.init (Main.video_fps v) k)) as Hch.
  rewrite E in Hch. apply chained_tail in Hch.
  apply (chained_gap _ _ _ _ c2) in Hch; [|lia|apply in_elt].
  now apply Hch.
Qed.

(** A stream of twenty identical frames at 1 fps, threshold -1: the
    scene-change branch captures frames 1 and 7. *)
Lemma scene_captures_cooldown_witness :
  7 - 1 > 1 * 5.
Proof.
  exact (scene_captures_cooldown
           (video 1 (repeat (flat 7 4) 20)) 10 (-1 # 1)
           [] []
           [{| Main.sequence_number := 2; Main.frame_index := 10;
               Main.timestamp := (0, 0, 10); Main.trigger := Main.Interval;
               Main.written := WriteOk |};
            {| Main.sequence_number := 3; Main.frame_index := 16;
               Main.timestamp := (0, 0, 16); Main.trigger := Main.SceneChange;
               Main.written := WriteOk |}]
           {| Main.sequence_number := 0; Main.frame_index := 1;
              Main.timestamp := (0, 0, 1); Main.trigger := Main.SceneChange;
              Main.written := WriteOk |}
           {| Main.sequence_number := 1; Main.frame_index := 7;
              Main.timestamp := (0, 0, 7); Main.trigger := Main.SceneChange;
              Main.written := WriteOk |}
           eq_refl eq_refl eq_refl).
Defined.

Lemma small_not_multiple lo n i :
  0 < lo -> lo + Z.of_nat n <= 100 * 10 ->
  lo <= i < lo + Z.of_nat n -> i mod (100 * 10) <> 0.
Proof.
  intros Hlo Hhi Hi. rewrite Z.mod_small by lia. lia.
Qed.

Lemma black_then_white_loop n :
  n <> 0%nat ->
  Main.loop 10 100 (30 # 1) (Main.init 10 100) (black_then_white n) =
  {| Main.emitted :=
       [{| Main.sequence_number := 0; Main.frame_index := 50;
           Main.timestamp := (0, 0, 5); Main.trigger := Main.SceneChange;
           Main.written := WriteOk |}];
     Main.final := {| Main.prev_frame := Some (repeat 255 n);
                      Main.frame_count := 100;
                      Main.last_captured := 50;
                      Main.screenshots_taken := 1 |};
     Main.raised := None |}.
Proof.
  intros Hn. unfold black_then_white.
  assert (Hblack : calm (30 # 1) (repeat 0 n) (repeat 0 n) = true)
    by now rewrite calm_repeat.
  assert (Hwhite : calm (30 # 1) (repeat 255 n) (repeat 255 n) = true)
    by now rewrite calm_repeat.
  change (repeat (flat 0 n) 50) with (flat 0 n :: repeat (flat 0 n) 49).
  change (repeat (flat 255 n) 50) with (flat 255 n :: repeat (flat 255 n) 49).
  cbn [app Main.loop]. unfold Main.step at 1.
  cbn [flat cvtColor Main.should_capture Main.init Main.prev_frame].
  set (st1 := Main.advance _ _).
  assert (Hkf : 100 * 10 <> 0) by lia.
  assert (H1 : forall i, 1 <= i < 1 + Z.of_nat 49 -> i mod (100 * 10) <> 0)
    by (intros i Hi; apply (small_not_multiple 1 49); lia).
  assert (H51 : forall i, 51 <= i < 51 + Z.of_nat 49 -> i mod (100 * 10) <> 0)
    by (intros i Hi; apply (small_not_multiple 51 49); lia).
  pose proof (loop_still 10 100 (30 # 1) (flat 0 n) (repeat 0 n) 49 st1
                eq_refl eq_refl Hblack Hkf H1) as E1.
  rewrite loop_app by now rewrite E1.
  rewrite E1. cbn [Main.final Main.emitted app].
  cbn [Main.loop]. unfold Main.step at 1 2 3.
  cbn [flat cvtColor imwrite]. unfold Main.should_capture at 1 2 3.
  subst st1. cbn [Main.advance Main.init Main.prev_frame Main.frame_count
                  Main.last_captured Main.screenshots_taken].
  rewrite absdiff_repeat, gt_mean_repeat by assumption.
  change (negb (Qle_bool (inject_Z (Z.abs (255 - 0))) (30 # 1))
          && (0 + 1 + Z.of_nat 49 - - (100) * 10 >? 10 * 5)) with true.
  cbn iota. unfold Main.capture.
  cbn [imwrite Main.advance Main.prev_frame Main.frame_count
       Main.last_captured Main.screenshots_taken fst snd].
  erewrite (loop_still 10 100 (30 # 1) (flat 255 n) (repeat 255 n) 49);
    [reflexivity|reflexivity|reflexivity|exact Hwhite|exact Hkf|exact H51].
Qed.

(** C3: the 100-frame stream at 10 fps, frames 0-49 of luminance 0 and
    frames 50-99 of luminance 255, with [scene_threshold = 30] and
    [interval_seconds = 100], gives exactly one capture, made by the
    scene-change branch at frame 50; frame 0 is not captured. *)
Theorem scene_example_one_capture (n : nat) :
  n <> 0%nat ->
  Main.extract_frames (video 10 (black_then_white n)) 100 (30 # 1) =
  ([{| Main.sequence_number := 0; Main.frame_index := 50;
       Main.timestamp := (0, 0, 5); Main.trigger := Main.SceneChange;
       Main.written := WriteOk |}], inr 1).
Proof.
  intros Hn. unfold Main.extract_frames, video.
  cbn [Main.path_exists Main.is_opened Main.video_fps Main.frames negb].
  change (10 =? 0) with false. cbn iota.
  now rewrite (black_then_white_loop n Hn).
Qed.

(** C3 on frames of 8 x 8 pixels. *)
Lemma scene_example_one_capture_witness :
  Main.extract_frames (video 10 (black_then_white 64)) 100 (30 # 1) =
  ([{| Main.sequence_number := 0; Main.frame_index := 50;
       Main.timestamp := (0, 0, 5); Main.trigger := Main.SceneChange;
       Main.written := WriteOk |}], inr 1).
Proof.
  apply (scene_example_one_capture 64). discriminate.
Defined.

Lemma captures_at_none i cs :
  (forall c, In c cs -> Main.frame_index c <> i) -> captures_at i cs = 0%nat.
Proof.
  unfold captures_at. induction cs as [|c cs IH]; cbn; intros H; [reflexivity|].
  destruct (Z.eqb_spec (Main.frame_index c) i) as [E|_].
  - exfalso. apply (H c); [now left|assumption].
  - apply IH. intros c' Hin. apply H. now right.
Qed.

Lemma captures_at_app i l1 l2 :
  captures_at i (l1 ++ l2) = (captures_at i l1 + captures_at i l2)%nat.
Proof.
  unfold captures_at. now rewrite filter_app, length_app.
Qed.

(** The iteration taken when the scene-change test passes. *)
Lemma step_scene fps k t st fr gray prev diff :
  cvtColor fr = Some gray ->
  Main.prev_frame st = Some prev ->
  absdiff gray prev = Some diff ->
  gt (np_mean diff) t = true ->
  Main.frame_count st - Main.last_captured st > fps * 5 ->
  Main.step fps k t st fr =
  inr (Main.advance (fst (Main.capture fps st fr Main.SceneChange)) gray,
       Some (snd (Main.capture fps st fr Main.SceneChange))).
Proof.
  intros Hc Hp Hd Hg Hcool. unfold Main.step, Main.should_capture.
  rewrite Hc, Hp, Hd, Hg.
  destruct (Z.gtb_spec (Main.frame_count st - Main.last_captured st) (fps * 5));
    [reflexivity|lia].
Qed.

(** C6: at a frame where the scene-change condition and the interval
    condition both hold, the run makes exactly one capture with that
    frame index, and it is the scene-change branch that makes it. *)
Theorem both_conditions_one_capture (fps k : Z) (t : Q)
        (fs1 fs2 : list Frame) (fr : Frame) (gray prev : Gray) (diff : list Z) :
  Main.raised (Main.loop fps k t (Main.init fps k) fs1) = None ->
  cvtColor fr = Some gray ->
  Main.prev_frame (Main.final (Main.loop fps k t (Main.init fps k) fs1))
  = Some prev ->
  absdiff gray prev = Some diff ->
  gt (np_mean diff) t = true ->
  Main.frame_count (Main.final (Main.loop fps k t (Main.init fps k) fs1))
  - Main.last_captured (Main.final (Main.loop fps k t (Main.init fps k) fs1))
  > fps * 5 ->
  Main.frame_count (Main.final (Main.loop fps k t (Main.init fps k) fs1))
  mod (k * fps) = 0 ->
  captures_at
    (Main.frame_count (Main.final (Main.loop fps k t (Main.init fps k) fs1)))
    (Main.emitted (Main.loop fps k t (Main.init fps k) (fs1 ++ fr :: fs2)))
  = 1%nat /\
  forall c,
    In c (Main.emitted (Main.loop fps k t (Main.init fps k) (fs1 ++ fr :: fs2))) ->
    Main.frame_index c
    = Main.frame_count (Main.final (Main.loop fps k t (Main.init fps k) fs1)) ->
    Main.trigger c = Main.SceneChange.
Proof.
  intros Hr Hc Hp Hd Hg Hcool _.
  rewrite (loop_app fps k t fs1 (fr :: fs2) _ Hr). cbn [Main.emitted].
  pose proof (loop_bounds fps k t fs1 (Main.init fps k)) as [_ Hbefore].
  set (st := Main.final (Main.loop fps k t (Main.init fps k) fs1)) in *.
  cbn [Main.loop]. rewrite (step_scene fps k t st fr gray prev diff Hc Hp Hd Hg Hcool).
  set (st2 := Main.advance _ gray).
  pose proof (loop_bounds fps k t fs2 st2) as [_ Hafter].
  unfold Main.emit. cbn [Main.emitted].
  assert (Hi : Main.frame_index (snd (Main.capture fps st fr Main.SceneChange))
               = Main.frame_count st) by reflexivity.
  assert (H2 : Main.frame_count st2 = Main.frame_count st + 1) by reflexivity.
  split.
  - change (?c :: ?l) with ([c] ++ l). rewrite !captures_at_app.
    rewrite (captures_at_none _ (Main.emitted (Main.loop fps k t (Main.init fps k) fs1))),
            (captures_at_none _ (Main.emitted (Main.loop fps k t st2 fs2))).
    + unfold captures_at. cbn [filter]. rewrite Hi, Z.eqb_refl. reflexivity.
    + intros c Hin. apply Hafter in Hin. lia.
    + intros c Hin. apply Hbefore in Hin. lia.
  - intros c Hin E. apply in_app_or in Hin as [Hin|[<-|Hin]].
    + apply Hbefore in Hin. lia.
    + reflexivity.
    + apply Hafter in Hin. lia.
Qed.

(** Six dark frames at 1 fps with [interval_seconds = 6]; frame 6 is
    bright, past the cooldown and on the interval boundary. *)
Lemma both_conditions_one_capture_witness :
  captures_at 6
    (Main.emitted (Main.loop 1 6 (30 # 1) (Main.init 1 6)
                     (repeat (flat 0 4) 6 ++ flat 255 4 :: [flat 255 4])))
  = 1%nat.
Proof.
  exact (proj1 (both_conditions_one_capture 1 6 (30 # 1)
                  (repeat (flat 0 4) 6) [flat 255 4] (flat 255 4)
                  (repeat 255 4) (repeat 0 4) (repeat 255 4)
                  eq_refl eq_refl eq_refl eq_refl eq_refl eq_refl eq_refl)).
Defined.

Lemma total_absdiff_px_nonneg a : forall b, 0 <= total (absdiff_px a b).
Proof.
  induction a as [|x a IH]; intros [|y b]; cbn; try lia.
  fold (total (absdiff_px a b)). specialize (IH b). lia.
Qed.

Lemma absdiff_px_self a : total (absdiff_px a a) = 0.
Proof.
  induction a as [|x a IH]; cbn; [reflexivity|].
  fold (total (absdiff_px a a)). rewrite IH. lia.
Qed.

(** A mean difference is never negative. *)
Lemma gt_mean_negative gray prev diff (t : Q) :
  absdiff gray prev = Some diff -> diff <> [] -> (t < 0)%Q ->
  gt (np_mean diff) t = true.
Proof.
  unfold absdiff. destruct (Nat.eqb _ _); [|discriminate].
  intros [= <-] Hne Ht. pose proof (total_absdiff_px_nonneg gray prev) as H0.
  destruct (absdiff_px gray prev) as [|d ds] eqn:E; [contradiction|].
  cbn [np_mean gt]. apply negb_true_iff.
  destruct (Qle_bool _ t) eqn:Eq; [|reflexivity].
  apply Qle_bool_iff in Eq. unfold Qle, Qlt in *. cbn [Qnum Qden] in *.
  nia.
Qed.

(** The mean difference of a frame against itself is not above 0. *)
Lemma gt_mean_self gray diff (t : Q) :
  absdiff gray gray = Some diff -> (t == 0)%Q -> gt (np_mean diff) t = false.
Proof.
  unfold absdiff. rewrite Nat.eqb_refl. intros [= <-] Ht.
  pose proof (absdiff_px_self gray) as H0.
  destruct (absdiff_px gray gray) as [|d ds]; [reflexivity|].
  cbn [np_mean gt]. apply negb_false_iff, Qle_bool_iff.
  rewrite H0, Ht. unfold Qle. cbn. lia.
Qed.

(** C7, as the code has it: for a threshold below 0, on a frame after
    the first (same shape as the previous one, not empty), once more
    than [fps * 5] frames have passed since the last capture, the
    scene-change branch captures the frame whatever its content.  At
    threshold 0 the test is the strict [mean_diff > 0]: a frame equal
    to the previous one does not fire the scene-change branch. *)
Theorem nonpositive_threshold_scene_capture (fps k : Z) (t : Q)
        (st : Main.State) (fr : Frame) (gray prev : Gray) :
  cvtColor fr = Some gray ->
  Main.prev_frame st = Some prev ->
  Main.frame_count st - Main.last_captured st > fps * 5 ->
  ((t < 0)%Q -> length gray = length prev -> gray <> [] ->
   Main.step fps k t st fr =
   inr (Main.advance (fst (Main.capture fps st fr Main.SceneChange)) gray,
        Some (snd (Main.capture fps st fr Main.SceneChange)))) /\
  ((t == 0)%Q -> gray = prev ->
   Main.should_capture fps k t st gray <> inr (Some Main.SceneChange)).
Proof.
  intros Hc Hp Hcool. split.
  - intros Ht Hlen Hne.
    assert (Hd : absdiff gray prev = Some (absdiff_px gray prev)).
    { unfold absdiff. now rewrite Hlen, Nat.eqb_refl. }
    apply (step_scene fps k t st fr gray prev _ Hc Hp Hd); [|assumption].
    apply (gt_mean_negative gray prev); [assumption| |assumption].
    destruct gray as [|x gray]; [contradiction|].
    destruct prev as [|y prev]; [discriminate|]. discriminate.
  - intros Ht <-. unfold Main.should_capture. rewrite Hp.
    destruct (absdiff gray gray) as [d|] eqn:Ed; [|discriminate].
    rewrite (gt_mean_self gray d t Ed Ht). cbn.
    destruct (k * fps =? 0); [discriminate|].
    destruct (_ mod _ =? 0); discriminate.
Qed.

(** Two identical frames at 1 fps, the cooldown passed: at
    threshold -1 the second one is captured by the scene-change
    branch; at threshold 0 that branch does not fire. *)
Lemma nonpositive_threshold_scene_capture_witness :
  Main.step 1 10 (-1 # 1)
            (Main.final (Main.loop 1 10 (-1 # 1) (Main.init 1 10) [flat 7 4]))
            (flat 7 4)
  = inr ({| Main.prev_frame := Some [7; 7; 7; 7]; Main.frame_count := 2;
            Main.last_captured := 1; Main.screenshots_taken := 1 |},
         Some {| Main.sequence_number := 0; Main.frame_index := 1;
                 Main.timestamp := (0, 0, 1);
                 Main.trigger := Main.SceneChange; Main.written := WriteOk |}) /\
  Main.should_capture 1 10 (0 # 1)
    (Main.final (Main.loop 1 10 (0 # 1) (Main.init 1 10) [flat 7 4]))
    [7; 7; 7; 7]
  <> inr (Some Main.SceneChange).
Proof.
  split.
  - apply (proj1 (nonpositive_threshold_scene_capture 1 10 (-1 # 1)
                    (Main.final (Main.loop 1 10 (-1 # 1) (Main.init 1 10) [flat 7 4]))
                    (flat 7 4) [7; 7; 7; 7] [7; 7; 7; 7]
                    eq_refl eq_refl eq_refl));
      [reflexivity|reflexivity|discriminate].
  - apply (proj2 (nonpositive_threshold_scene_capture 1 10 (0 # 1)
                    (Main.final (Main.loop 1 10 (0 # 1) (Main.init 1 10) [flat 7 4]))
                    (flat 7 4) [7; 7; 7; 7] [7; 7; 7; 7]
                    eq_refl eq_refl eq_refl));
      reflexivity.
Defined.

(** C7 as stated fails at threshold 0: after one frame at 1 fps with
    [interval_seconds = 10] the cooldown has passed
    ([1 - (-10) > 5]), yet an identical second frame is not captured,
    and a run over eight identical frames captures nothing. *)
Lemma zero_threshold_counterexample :
  (0 # 1 <= 0)%Q /\
  Main.prev_frame (Main.final (Main.loop 1 10 (0 # 1) (Main.init 1 10) [flat 7 4]))
  = Some [7; 7; 7; 7] /\
  Main.frame_count (Main.final (Main.loop 1 10 (0 # 1) (Main.init 1 10) [flat 7 4]))
  - Main.last_captured (Main.final (Main.loop 1 10 (0 # 1) (Main.init 1 10) [flat 7 4]))
  > 1 * 5 /\
  Main.step 1 10 (0 # 1)
            (Main.final (Main.loop 1 10 (0 # 1) (Main.init 1 10) [flat 7 4]))
            (flat 7 4)
  = inr ({| Main.prev_frame := Some [7; 7; 7; 7]; Main.frame_count := 2;
            Main.last_captured := -10; Main.screenshots_taken := 0 |}, None) /\
  Main.extract_frames (video 1 (repeat (flat 7 4) 8)) 10 (0 # 1) = ([], inr 0).
Proof.
  repeat split. discriminate.
Qed.

(** C8: in a run at a positive [fps], every iteration of the loop
    leaves [last_captured] unchanged or sets it to a strictly larger
    value. *)
Theorem last_captured_monotone (fps k : Z) (t : Q)
        (st st' : Main.State) (fr : Frame) (oc : option Main.Capture) :
  0 < fps ->
  reachable fps k t st ->
  Main.step fps k t st fr = inr (st', oc) ->
  Main.last_captured st' = Main.last_captured st \/
  Main.last_captured st < Main.last_captured st'.
Proof.
  intros Hf Hr Es.
  apply (step_last_captured fps k t st fr st' oc Hf); [|assumption].
  now apply reachable_settled with t.
Qed.

(** The second frame of a run at 1 fps, [interval_seconds = 1]: the
    interval branch moves [last_captured] from -1 to 1. *)
Lemma last_captured_monotone_witness :
  1 = -1 \/ -1 < 1.
Proof.
  apply (last_captured_monotone 1 1 (30 # 1)
           (Main.advance (Main.init 1 1) [0; 0; 0; 0])
           {| Main.prev_frame := Some [0; 0; 0; 0]; Main.frame_count := 2;
              Main.last_captured := 1; Main.screenshots_taken := 1 |}
           (flat 0 4)
           (Some {| Main.sequence_number := 0; Main.frame_index := 1;
                    Main.timestamp := (0, 0, 1);
                    Main.trigger := Main.Interval; Main.written := WriteOk |})).
  - lia.
  - apply (reach_step 1 1 (30 # 1) (Main.init 1 1) (flat 0 4) _ None).
    + apply reach_init.
    + reflexivity.
  - reflexivity.
Defined.

(** The first capture of a run carries the current
    [screenshots_taken] as its sequence number. *)
Lemma loop_first_sequence fps k t fs : forall st c cs,
  Main.emitted (Main.loop fps k t st fs) = c :: cs ->
  Main.sequence_number c = Main.screenshots_taken st.
Proof.
  induction fs as [|fr fs IH]; intros st c cs; cbn [Main.loop Main.emitted];
    [discriminate|].
  destruct (Main.step fps k t st fr) as [e|[st' oc]] eqn:Es;
    cbn [Main.emitted]; [discriminate|].
  apply step_inv in Es. unfold Main.emit. cbn [Main.emitted].
  destruct Es as [Hc|g Hc Hs|g tr Hc Hs].
  - apply IH.
  - intros H. now apply IH in H.
  - now intros [= <- _].
Qed.

(** C9: when the write of a captured frame fails or raises,
    [last_captured] still becomes the current frame index and
    [screenshots_taken] stays as it was; so in the rest of the run no
    scene-change capture happens within [fps * 5] frames of the failed
    one, and the next capture reuses its sequence number. *)
Theorem failed_write_still_captured (fps k : Z) (t : Q)
        (st : Main.State) (fr : Frame) (gray : Gray) (tr : Main.Trigger) :
  cvtColor fr = Some gray ->
  Main.should_capture fps k t st gray = inr (Some tr) ->
  imwrite fr <> WriteOk ->
  exists st' c,
    Main.step fps k t st fr = inr (st', Some c) /\
    Main.frame_index c = Main.frame_count st /\
    Main.written c = imwrite fr /\
    Main.last_captured st' = Main.frame_count st /\
    Main.screenshots_taken st' = Main.screenshots_taken st /\
    forall rest,
      (forall c', In c' (Main.emitted (Main.loop fps k t st' rest)) ->
                  Main.trigger c' = Main.SceneChange ->
                  Main.frame_index c' - Main.frame_index c > fps * 5) /\
      (forall c' cs, Main.emitted (Main.loop fps k t st' rest) = c' :: cs ->
                     Main.sequence_number c' = Main.sequence_number c).
Proof.
  intros Hc Hs Hw.
  exists (Main.advance (fst (Main.capture fps st fr tr)) gray),
         (snd (Main.capture fps st fr tr)).
  split; [unfold Main.step; now rewrite Hc, Hs|].
  assert (Htaken : Main.screenshots_taken
                     (Main.advance (fst (Main.capture fps st fr tr)) gray)
                   = Main.screenshots_taken st).
  { cbn. now destruct (imwrite fr). }
  repeat split; [exact Htaken| |].
  - intros c' Hin Hscene.
    pose proof (loop_chained fps k t rest
                  (Main.advance (fst (Main.capture fps st fr tr)) gray)) as Hch.
    apply (chained_gap _ _ _ _ c') in Hch; [|cbn; lia|assumption].
    destruct Hch as [_ Hgap]. specialize (Hgap Hscene). cbn in Hgap |- *. lia.
  - intros c' cs E. apply loop_first_sequence in E. now rewrite E, Htaken.
Qed.

(** At 1 fps with [interval_seconds = 1], the capture of frame 1
    fails to write: the capture of frame 2 is numbered 0 again. *)
Lemma failed_write_still_captured_witness :
  exists st' c,
    Main.step 1 1 (30 # 1) (Main.advance (Main.init 1 1) [0; 0; 0; 0])
              {| cvtColor := Some [0; 0; 0; 0]; imwrite := WriteFailed |}
    = inr (st', Some c) /\
    Main.last_captured st' = 1 /\
    Main.screenshots_taken st' = 0 /\
    map Main.sequence_number (Main.emitted (Main.loop 1 1 (30 # 1) st' [flat 0 4]))
    = [Main.sequence_number c].
Proof.
  destruct (failed_write_still_captured 1 1 (30 # 1)
              (Main.advance (Main.init 1 1) [0; 0; 0; 0])
              {| cvtColor := Some [0; 0; 0; 0]; imwrite := WriteFailed |}
              [0; 0; 0; 0] Main.Interval eq_refl eq_refl)
    as (st' & c & Es & Hi & Hw & Hl & Ht & Hrest); [discriminate|].
  exists st', c. repeat split; try assumption.
  injection Es as <- <-. reflexivity.
Defined.

Lemma step_unconverted fps k t st fr :
  cvtColor fr = None -> Main.step fps k t st fr = inr (st, None).
Proof.
  intros Hc. unfold Main.step. now rewrite Hc.
Qed.

Lemma loop_filter_converts fps k t fs : forall st,
  Main.loop fps k t st fs = Main.loop fps k t st (filter converts fs).
Proof.
  induction fs as [|fr fs IH]; intros st; [reflexivity|].
  cbn [filter]. unfold converts at 1.
  destruct (cvtColor fr) as [g|] eqn:Hc.
  - cbn [Main.loop]. destruct (Main.step fps k t st fr) as [e|[st' oc]];
      [reflexivity|]. now rewrite IH.
  - cbn [Main.loop]. rewrite (step_unconverted fps k t st fr Hc).
    rewrite IH. unfold Main.emit. now destruct (Main.loop fps k t st _).
Qed.

(** [frame_count] is the number of frames converted so far. *)
Lemma loop_frame_count fps k t fs : forall st,
  Main.raised (Main.loop fps k t st fs) = None ->
  Main.frame_count (Main.final (Main.loop fps k t st fs))
  = Main.frame_count st + Z.of_nat (length (filter converts fs)).
Proof.
  induction fs as [|fr fs IH]; intros st; cbn [Main.loop filter].
  - intros _. cbn. lia.
  - destruct (Main.step fps k t st fr) as [e|[st' oc]] eqn:Es;
      cbn [Main.raised Main.final Main.emit]; [discriminate|].
    intros Hr. rewrite (IH st' Hr). apply step_inv in Es. unfold converts at 2.
    destruct Es as [Hc|g Hc Hs|g tr Hc Hs]; rewrite Hc; cbn -[Z.of_nat]; lia.
Qed.

(** C10: a frame whose grayscale conversion fails leaves the whole
    loop state as it was, [prev_frame] and [frame_count] included; a
    run therefore behaves as on the stream without those frames, and
    the frame index (hence the timestamp) of a capture is the number
    of frames converted before it, not its position in the stream. *)
Theorem unconverted_frames_not_counted (fps k : Z) (t : Q) :
  (forall st fr, cvtColor fr = None ->
                 Main.step fps k t st fr = inr (st, None)) /\
  (forall st fs,
     Main.loop fps k t st fs = Main.loop fps k t st (filter converts fs)) /\
  (forall fs fr st' c,
     Main.raised (Main.loop fps k t (Main.init fps k) fs) = None ->
     Main.step fps k t (Main.final (Main.loop fps k t (Main.init fps k) fs)) fr
     = inr (st', Some c) ->
     Main.frame_index c = Z.of_nat (length (filter converts fs)) /\
     Main.timestamp c
     = Main.timestamp_of fps (Z.of_nat (length (filter converts fs)))).
Proof.
  split; [apply step_unconverted|].
  split; [intros st fs; apply loop_filter_converts|].
  intros fs fr st' c Hr Es.
  pose proof (loop_frame_count fps k t fs (Main.init fps k) Hr) as Hfc.
  cbn [Main.init Main.frame_count] in Hfc. rewrite Z.add_0_l in Hfc.
  apply step_inv in Es. rewrite <- Hfc. inversion Es; subst. now split.
Qed.

(** Two frames that do not convert, one that does, then a capture at
    1 fps with [interval_seconds = 1]: the fourth frame of the stream
    is saved as frame 1, timestamp 00-00-01. *)
Lemma unconverted_frames_not_counted_witness :
  Main.step 1 1 (30 # 1) (Main.init 1 1) {| cvtColor := None; imwrite := WriteOk |}
  = inr (Main.init 1 1, None) /\
  Main.frame_index
    {| Main.sequence_number := 0; Main.frame_index := 1;
       Main.timestamp := (0, 0, 1);
       Main.trigger := Main.Interval; Main.written := WriteOk |} = 1 /\
  Main.timestamp
    {| Main.sequence_number := 0; Main.frame_index := 1;
       Main.timestamp := (0, 0, 1);
       Main.trigger := Main.Interval; Main.written := WriteOk |} = (0, 0, 1).
Proof.
  split.
  - exact (proj1 (unconverted_frames_not_counted 1 1 (30 # 1))
             (Main.init 1 1) {| cvtColor := None; imwrite := WriteOk |} eq_refl).
  - exact (proj2 (proj2 (unconverted_frames_not_counted 1 1 (30 # 1)))
             [ {| cvtColor := None; imwrite := WriteOk |};
               {| cvtColor := None; imwrite := WriteOk |};
               flat 0 4 ]
             (flat 0 4)
             {| Main.prev_frame := Some [0; 0; 0; 0]; Main.frame_count := 2;
                Main.last_captured := 1; Main.screenshots_taken := 1 |}
             {| Main.sequence_number := 0; Main.frame_index := 1;
                Main.timestamp := (0, 0, 1);
                Main.trigger := Main.Interval; Main.written := WriteOk |}
             eq_refl eq_refl).
Defined.

(** ** The properties of the timestamp-driven extractor *)

(** C4: the resolver computes
    [frame_index = floor((minutes*60 + seconds) * fps)] and fails
    exactly when [frame_index >= total_frames]; otherwise it proceeds
    with that index.  So does [get_screenshot] on a video that exists,
    opens and has a non-zero [fps]: it ends on "beyond video duration"
    exactly then, and otherwise seeks to that frame. *)
Theorem resolve_beyond_duration (minutes seconds fps total_frames : Z) :
  AtTime.frame_number fps minutes seconds
  = Qfloor (inject_Z (minutes * 60 + seconds) * inject_Z fps) /\
  (AtTime.resolve fps total_frames minutes seconds = None <->
   AtTime.frame_number fps minutes seconds >= total_frames) /\
  (AtTime.frame_number fps minutes seconds < total_frames ->
   AtTime.resolve fps total_frames minutes seconds
   = Some (AtTime.frame_number fps minutes seconds)) /\
  (forall v,
     AtTime.path_exists v = true -> AtTime.is_opened v = true ->
     AtTime.fps v = fps -> AtTime.total_frames v = total_frames ->
     fps <> 0 ->
     (AtTime.get_screenshot v minutes seconds = inr AtTime.BeyondDuration <->
      AtTime.frame_number fps minutes seconds >= total_frames) /\
     (AtTime.frame_number fps minutes seconds < total_frames ->
      AtTime.get_screenshot v minutes seconds
      = inr (match AtTime.read_at v (AtTime.frame_number fps minutes seconds) with
             | Some frame =>
                 AtTime.Wrote (AtTime.frame_number fps minutes seconds)
                              (imwrite frame)
             | None =>
                 AtTime.CouldNotRead (AtTime.frame_number fps minutes seconds)
             end))).
Proof.
  assert (Hres : AtTime.resolve fps total_frames minutes seconds = None <->
                 AtTime.frame_number fps minutes seconds >= total_frames).
  { unfold AtTime.resolve.
    destruct (Z.geb_spec (AtTime.frame_number fps minutes seconds) total_frames);
      split; try discriminate; try lia; reflexivity. }
  assert (Hok : AtTime.frame_number fps minutes seconds < total_frames ->
                AtTime.resolve fps total_frames minutes seconds
                = Some (AtTime.frame_number fps minutes seconds)).
  { intros Hlt. unfold AtTime.resolve.
    destruct (Z.geb_spec (AtTime.frame_number fps minutes seconds) total_frames);
      [lia|reflexivity]. }
  split; [|split; [exact Hres|split; [exact Hok|]]].
  - unfold AtTime.frame_number.
    rewrite <- inject_Z_mult. symmetry. apply Qfloor_Z.
  - intros v He Ho <- <- Hf. unfold AtTime.get_screenshot.
    rewrite He, Ho. cbn [negb].
    destruct (Z.eqb_spec (AtTime.fps v) 0) as [E|_]; [contradiction|].
    split.
    + rewrite <- Hres.
      destruct (AtTime.resolve _ _ _ _) as [n|]; [|tauto].
      split; [|discriminate]. destruct (AtTime.read_at v n); discriminate.
    + intros Hlt. rewrite (Hok Hlt).
      now destruct (AtTime.read_at v _).
Qed.

(** On the ten-second video, 0:01 resolves to frame 30 and is saved;
    1:00 resolves to frame 1800 and is beyond the duration. *)
Lemma resolve_beyond_duration_witness :
  AtTime.resolve 30 300 0 1 = Some 30 /\
  AtTime.get_screenshot ten_seconds 0 1 = inr (AtTime.Wrote 30 WriteOk) /\
  AtTime.get_screenshot ten_seconds 1 0 = inr AtTime.BeyondDuration.
Proof.
  destruct (resolve_beyond_duration 0 1 30 300) as (_ & _ & Hres & H01).
  destruct (H01 ten_seconds eq_refl eq_refl eq_refl eq_refl) as [_ Hseek];
    [discriminate|].
  destruct (resolve_beyond_duration 1 0 30 300) as (_ & _ & _ & H10).
  destruct (H10 ten_seconds eq_refl eq_refl eq_refl eq_refl) as [Hbeyond _];
    [discriminate|].
  split; [exact (Hres eq_refl)|]. split.
  - exact (Hseek eq_refl).
  - apply Hbeyond. discriminate.
Defined.

(** C5, as the code has it: on a 300-frame video at 30 fps a
    timestamp (m, s) resolves to frame [(60*m + s) * 30], so (1,0),
    (999,0) and (2,0) are all beyond the duration: the batch visits
    the three of them, reports three failures and captures nothing.
    The frames 30 and 60 are those of (0,1) and (0,2): the batch
    [(0,1), (999,0), (0,2)] captures these two when they read and
    save, and reports the one failure for (999,0) in between. *)
Theorem batch_continues_past_failure (v : AtTime.Video) (f1 f2 : Frame) :
  AtTime.path_exists v = true -> AtTime.is_opened v = true ->
  AtTime.fps v = 30 -> AtTime.total_frames v = 300 ->
  (AtTime.for_timestamps v [(1, 0); (999, 0); (2, 0)] 0
   = ([AtTime.BeyondDuration; AtTime.BeyondDuration; AtTime.BeyondDuration],
      inr 0) /\
   AtTime.capture_timestamps (Some v) [(1, 0); (999, 0); (2, 0)]
   = ([AtTime.BeyondDuration; AtTime.BeyondDuration; AtTime.BeyondDuration],
      inr false)) /\
  (AtTime.read_at v 30 = Some f1 -> imwrite f1 = WriteOk ->
   AtTime.read_at v 60 = Some f2 -> imwrite f2 = WriteOk ->
   AtTime.for_timestamps v [(0, 1); (999, 0); (0, 2)] 0
   = ([AtTime.Wrote 30 WriteOk; AtTime.BeyondDuration; AtTime.Wrote 60 WriteOk],
      inr 2) /\
   AtTime.capture_timestamps (Some v) [(0, 1); (999, 0); (0, 2)]
   = ([AtTime.Wrote 30 WriteOk; AtTime.BeyondDuration; AtTime.Wrote 60 WriteOk],
      inr true)).
Proof.
  intros He Ho Hf Ht.
  assert (Hget : forall m s,
            AtTime.get_screenshot v m s
            = match AtTime.resolve 30 300 m s with
              | None => inr AtTime.BeyondDuration
              | Some n =>
                  match AtTime.read_at v n with
                  | Some frame => inr (AtTime.Wrote n (imwrite frame))
                  | None => inr (AtTime.CouldNotRead n)
                  end
              end).
  { intros m s. unfold AtTime.get_screenshot. now rewrite He, Ho, Hf, Ht. }
  split.
  - unfold AtTime.capture_timestamps. cbn [AtTime.for_timestamps].
    rewrite !Hget. cbn. split; reflexivity.
  - intros H30 W1 H60 W2.
    unfold AtTime.capture_timestamps. cbn [AtTime.for_timestamps].
    rewrite !Hget.
    change (AtTime.resolve 30 300 0 1) with (Some 30).
    change (AtTime.resolve 30 300 999 0) with (@None Z).
    change (AtTime.resolve 30 300 0 2) with (Some 60).
    cbv beta iota. rewrite H30. cbv beta iota. rewrite W1.
    cbn [AtTime.success]. cbv beta iota. rewrite H60, W2.
    split; reflexivity.
Qed.

(** C5 on the ten-second video whose frames all read and save. *)
Lemma batch_continues_past_failure_witness :
  AtTime.capture_timestamps (Some ten_seconds) [(1, 0); (999, 0); (2, 0)]
  = ([AtTime.BeyondDuration; AtTime.BeyondDuration; AtTime.BeyondDuration],
     inr false) /\
  AtTime.for_timestamps ten_seconds [(0, 1); (999, 0); (0, 2)] 0
  = ([AtTime.Wrote 30 WriteOk; AtTime.BeyondDuration; AtTime.Wrote 60 WriteOk],
     inr 2).
Proof.
  destruct (batch_continues_past_failure ten_seconds (flat 0 4) (flat 0 4)
              eq_refl eq_refl eq_refl eq_refl) as [[_ Hall] Htwo].
  destruct (Htwo eq_refl eq_refl eq_refl eq_refl) as [Hcount _].
  split; [exact Hall|exact Hcount].
Defined.

(** C5 as stated fails: on the ten-second video (300 frames, 30 fps,
    every frame reads and saves) the timestamps (1,0) and (2,0)
    resolve to the frames 1800 and 3600, not 30 and 60; no timestamp
    of the batch succeeds and three failures are reported. *)
Lemma batch_example_counterexample :
  AtTime.frame_number 30 1 0 = 1800 /\
  AtTime.frame_number 30 2 0 = 3600 /\
  AtTime.for_timestamps ten_seconds [(1, 0); (999, 0); (2, 0)] 0
  = ([AtTime.BeyondDuration; AtTime.BeyondDuration; AtTime.BeyondDuration],
     inr 0) /\
  AtTime.capture_timestamps (Some ten_seconds) [(1, 0); (999, 0); (2, 0)]
  = ([AtTime.BeyondDuration; AtTime.BeyondDuration; AtTime.BeyondDuration],
     inr false).
Proof.
  repeat split.
Qed.

(** ** Further properties of the scene-driven extractor *)

Lemma grays_filter fs : length (grays fs) = length (filter converts fs).
Proof.
  induction fs as [|fr fs IH]; [reflexivity|].
  cbn [grays filter]. unfold converts at 1.
  destruct (cvtColor fr); cbn [length]; now rewrite IH.
Qed.

(** Frames that do not convert in front of a stream can be dropped. *)
Lemma loop_grays_nil fps k t fs : forall st,
  grays fs = [] ->
  Main.loop fps k t st fs
  = {| Main.emitted := []; Main.final := st; Main.raised := None |}.
Proof.
  induction fs as [|fr fs IH]; intros st Hg; [reflexivity|].
  cbn [grays] in Hg. cbn [Main.loop]. unfold Main.step.
  destruct (cvtColor fr); [discriminate|]. now rewrite (IH st Hg).
Qed.

Lemma loop_grays_cons fps k t fs : forall g gs,
  grays fs = g :: gs ->
  exists fr fs',
    cvtColor fr = Some g /\ grays fs' = gs /\
    forall st, Main.loop fps k t st fs = Main.loop fps k t st (fr :: fs').
Proof.
  induction fs as [|fr fs IH]; intros g gs Hg; [discriminate|].
  cbn [grays] in Hg. destruct (cvtColor fr) as [g'|] eqn:Hc.
  - injection Hg as -> <-. now exists fr, fs.
  - destruct (IH g gs Hg) as (fr' & fs' & Hc' & Hgs & Hl).
    exists fr', fs'. repeat split; [assumption|assumption|].
    intros st. rewrite <- Hl. cbn [Main.loop].
    rewrite (step_unconverted fps k t st fr Hc).
    unfold Main.emit. now destruct (Main.loop fps k t st fs).
Qed.

(** X1: a video with at most one frame that converts gives no capture
    and the count 0, whatever the interval and the threshold. *)
Theorem short_stream_no_capture (v : Main.Video) (k : Z) (t : Q) :
  Main.video_fps v <> 0 ->
  (length (grays (Main.frames v)) <= 1)%nat ->
  Main.extract_frames v k t = ([], inr 0).
Proof.
  intros Hf Hlen. unfold Main.extract_frames.
  destruct (negb (Main.path_exists v)); [reflexivity|].
  destruct (negb (Main.is_opened v)); [reflexivity|].
  destruct (Z.eqb_spec (Main.video_fps v) 0) as [E|_]; [contradiction|].
  destruct (grays (Main.frames v)) as [|g [|g' gs]] eqn:Hg.
  - now rewrite (loop_grays_nil _ _ _ _ _ Hg).
  - destruct (loop_grays_cons (Main.video_fps v) k t _ _ _ Hg)
      as (fr & fs' & Hc & Hgs & Hl).
    rewrite Hl. cbn [Main.loop]. unfold Main.step. rewrite Hc.
    cbn [Main.should_capture Main.init Main.prev_frame].
    now rewrite (loop_grays_nil _ _ _ _ _ Hgs).
  - cbn [length] in Hlen. lia.
Qed.

(** A stream of one frame at 30 fps. *)
Lemma short_stream_no_capture_witness :
  Main.extract_frames (video 30 [flat 0 4]) 30 (30 # 1) = ([], inr 0).
Proof.
  apply short_stream_no_capture; [discriminate|cbn; lia].
Defined.

Lemma loop_frame_count_le fps k t fs : forall st,
  Main.frame_count (Main.final (Main.loop fps k t st fs))
  <= Main.frame_count st + Z.of_nat (length (grays fs)).
Proof.
  induction fs as [|fr fs IH]; intros st; cbn [Main.loop grays].
  - cbn. lia.
  - destruct (Main.step fps k t st fr) as [e|[st' oc]] eqn:Es;
      cbn [Main.final Main.emit].
    + destruct (cvtColor fr); cbn [length]; lia.
    + specialize (IH st'). apply step_inv in Es.
      destruct Es as [Hc|g Hc Hs|g tr Hc Hs]; rewrite Hc;
        cbn -[Z.of_nat] in IH |- *; lia.
Qed.

Lemma loop_index_positive fps k t fs : forall st c,
  settled fps k st ->
  In c (Main.emitted (Main.loop fps k t st fs)) -> 1 <= Main.frame_index c.
Proof.
  induction fs as [|fr fs IH]; intros st c Hst; cbn [Main.loop Main.emitted];
    [contradiction|].
  destruct (Main.step fps k t st fr) as [e|[st' oc]] eqn:Es;
    cbn [Main.emitted]; [contradiction|].
  pose proof (step_settled fps k t st fr st' oc Hst Es) as Hst'.
  apply step_inv in Es. unfold Main.emit. cbn [Main.emitted].
  destruct Es as [Hc|g Hc Hs|g tr Hc Hs]; try now apply IH.
  intros [<-|Hin]; [|now apply (IH _ c Hst')].
  cbn. destruct Hst as (_ & Hp & _). apply Hp.
  unfold Main.should_capture in Hs.
  destruct (Main.prev_frame st); [discriminate|discriminate].
Qed.

Lemma init_settled fps k : settled fps k (Main.init fps k).
Proof.
  repeat split; cbn; [lia|congruence|now right].
Qed.

(** The captures of [extract_frames] are those of the loop. *)
Lemma extract_frames_captures v k t c :
  In c (fst (Main.extract_frames v k t)) ->
  In c (Main.emitted (Main.loop (Main.video_fps v) k t
                        (Main.init (Main.video_fps v) k) (Main.frames v))).
Proof.
  unfold Main.extract_frames.
  destruct (negb (Main.path_exists v)); [contradiction|].
  destruct (negb (Main.is_opened v)); [contradiction|].
  destruct (Main.video_fps v =? 0); [contradiction|].
  trivial.
Qed.

Lemma extract_frames_split v k t l1 c l2 :
  fst (Main.extract_frames v k t) = l1 ++ c :: l2 ->
  Main.emitted (Main.loop (Main.video_fps v) k t
                  (Main.init (Main.video_fps v) k) (Main.frames v))
  = l1 ++ c :: l2.
Proof.
  unfold Main.extract_frames.
  destruct (negb (Main.path_exists v)); [now destruct l1|].
  destruct (negb (Main.is_opened v)); [now destruct l1|].
  destruct (Main.video_fps v =? 0); [now destruct l1|].
  trivial.
Qed.

Lemma capture_indices_positive_aux v k t c :
  In c (fst (Main.extract_frames v k t)) ->
  1 <= Main.frame_index c /\
  Main.frame_index c < Z.of_nat (length (grays (Main.frames v))).
Proof.
  intros Hin. apply extract_frames_captures in Hin. split.
  - apply (loop_index_positive (Main.video_fps v) k t (Main.frames v)
             (Main.init (Main.video_fps v) k) c (init_settled _ k) Hin).
  - pose proof (loop_bounds (Main.video_fps v) k t (Main.frames v)
                  (Main.init (Main.video_fps v) k)) as [_ Hb].
    apply Hb in Hin.
    pose proof (loop_frame_count_le (Main.video_fps v) k t (Main.frames v)
                  (Main.init (Main.video_fps v) k)) as Hle.
    cbn [Main.init Main.frame_count] in Hle. lia.
Qed.

(** X2: the frame indices of the captures of a run increase strictly,
    start after frame 0 and stay below the number of frames that
    converted. *)
Theorem capture_indices_increase (v : Main.Video) (k : Z) (t : Q) :
  (forall c, In c (fst (Main.extract_frames v k t)) ->
             1 <= Main.frame_index c
             < Z.of_nat (length (grays (Main.frames v)))) /\
  (forall l1 c1 l2 c2 l3,
     fst (Main.extract_frames v k t) = l1 ++ c1 :: l2 ++ c2 :: l3 ->
     Main.frame_index c1 < Main.frame_index c2).
Proof.
  split.
  - intros c Hin. now apply (capture_indices_positive_aux v k t).
  - intros l1 c1 l2 c2 l3 E. apply extract_frames_split in E.
    pose proof (loop_chained (Main.video_fps v) k t (Main.frames v)
                  (Main.init (Main.video_fps v) k)) as Hch.
    rewrite E in Hch. apply chained_tail in Hch.
    apply (chained_gap _ _ _ _ c2) in Hch; [lia|lia|apply in_elt].
Qed.

(** Twenty identical frames at 1 fps, threshold -1: captures at the
    frames 1, 7, 10 and 16. *)
Lemma capture_indices_increase_witness :
  1 <= 7 < 20 /\ 1 < 16.
Proof.
  destruct (capture_indices_increase (video 1 (repeat (flat 7 4) 20)) 10 (-1 # 1))
    as [Hrange Hlt].
  split.
  - apply (Hrange {| Main.sequence_number := 1; Main.frame_index := 7;
                     Main.timestamp := (0, 0, 7);
                     Main.trigger := Main.SceneChange;
                     Main.written := WriteOk |}).
    right. left. reflexivity.
  - apply (Hlt []
               {| Main.sequence_number := 0; Main.frame_index := 1;
                  Main.timestamp := (0, 0, 1);
                  Main.trigger := Main.SceneChange; Main.written := WriteOk |}
               [{| Main.sequence_number := 1; Main.frame_index := 7;
                   Main.timestamp := (0, 0, 7);
                   Main.trigger := Main.SceneChange; Main.written := WriteOk |};
                {| Main.sequence_number := 2; Main.frame_index := 10;
                   Main.timestamp := (0, 0, 10);
                   Main.trigger := Main.Interval; Main.written := WriteOk |}]
               {| Main.sequence_number := 3; Main.frame_index := 16;
                  Main.timestamp := (0, 0, 16);
                  Main.trigger := Main.SceneChange; Main.written := WriteOk |}
               []).
    reflexivity.
Defined.

Lemma extract_frames_count v k t n :
  snd (Main.extract_frames v k t) = inr n ->
  n = Z.of_nat (length (saved (fst (Main.extract_frames v k t)))).
Proof.
  unfold Main.extract_frames.
  destruct (negb (Main.path_exists v)); [now intros [= <-]|].
  destruct (negb (Main.is_opened v)); [now intros [= <-]|].
  destruct (Main.video_fps v =? 0); [discriminate|].
  cbn [fst snd]. destruct (Main.raised _); [discriminate|].
  intros [= <-]. rewrite loop_taken. cbn. lia.
Qed.

(** X3: the count [extract_frames] returns is the number of captures
    whose file was written. *)
Theorem returned_count_is_saved (v : Main.Video) (k : Z) (t : Q) (n : Z) :
  snd (Main.extract_frames v k t) = inr n ->
  n = Z.of_nat (length (saved (fst (Main.extract_frames v k t)))).
Proof.
  apply extract_frames_count.
Qed.

(** At 1 fps with [interval_seconds = 1] the frames 1 and 2 are
    captured; the write of the first fails: the count is 1. *)
Lemma returned_count_is_saved_witness :
  1 = Z.of_nat (length (saved (fst (Main.extract_frames
        (video 1 [flat 0 4;
                  {| cvtColor := Some [0; 0; 0; 0]; imwrite := WriteFailed |};
                  flat 0 4]) 1 (30 # 1))))).
Proof.
  apply (returned_count_is_saved
           (video 1 [flat 0 4;
                     {| cvtColor := Some [0; 0; 0; 0]; imwrite := WriteFailed |};
                     flat 0 4]) 1 (30 # 1) 1 eq_refl).
Defined.

Lemma loop_sequence_numbers fps k t fs : forall st l1 c l2,
  Main.emitted (Main.loop fps k t st fs) = l1 ++ c :: l2 ->
  Main.sequence_number c
  = Main.screenshots_taken st + Z.of_nat (length (saved l1)).
Proof.
  induction fs as [|fr fs IH]; intros st l1 c l2;
    cbn [Main.loop Main.emitted]; [now destruct l1|].
  destruct (Main.step fps k t st fr) as [e|[st' oc]] eqn:Es;
    cbn [Main.emitted]; [now destruct l1|].
  apply step_inv in Es. unfold Main.emit. cbn [Main.emitted].
  destruct Es as [Hc|g Hc Hs|g tr Hc Hs].
  - apply IH.
  - intros E. now rewrite (IH _ _ _ _ E).
  - destruct l1 as [|c0 l1]; cbn [app].
    + intros [= <- _]. cbn. lia.
    + intros [= <- E]. rewrite (IH _ _ _ _ E). unfold saved. cbn.
      destruct (imwrite fr); cbn [length]; lia.
Qed.

(** X4: a capture is numbered by the count of captures written before
    it in the run: written files are numbered 0, 1, 2, ... and a
    failed write does not use up a number. *)
Theorem sequence_number_counts_saved (v : Main.Video) (k : Z) (t : Q)
        (l1 l2 : list Main.Capture) (c : Main.Capture) :
  fst (Main.extract_frames v k t) = l1 ++ c :: l2 ->
  Main.sequence_number c = Z.of_nat (length (saved l1)).
Proof.
  intros E. apply extract_frames_split in E.
  now rewrite (loop_sequence_numbers _ _ _ _ _ _ _ _ E).
Qed.

(** Twenty identical frames at 1 fps, threshold -1: the third capture,
    at frame 10, has number 2. *)
Lemma sequence_number_counts_saved_witness :
  2 = Z.of_nat 2.
Proof.
  exact (sequence_number_counts_saved
           (video 1 (repeat (flat 7 4) 20)) 10 (-1 # 1)
           [{| Main.sequence_number := 0; Main.frame_index := 1;
               Main.timestamp := (0, 0, 1);
               Main.trigger := Main.SceneChange; Main.written := WriteOk |};
            {| Main.sequence_number := 1; Main.frame_index := 7;
               Main.timestamp := (0, 0, 7);
               Main.trigger := Main.SceneChange; Main.written := WriteOk |}]
           [{| Main.sequence_number := 3; Main.frame_index := 16;
               Main.timestamp := (0, 0, 16);
               Main.trigger := Main.SceneChange; Main.written := WriteOk |}]
           {| Main.sequence_number := 2; Main.frame_index := 10;
              Main.timestamp := (0, 0, 10);
              Main.trigger := Main.Interval; Main.written := WriteOk |}
           eq_refl).
Defined.

(** X5: a scene-change capture is more than [fps * 5] frames after
    every earlier capture of the run, interval captures included. *)
Theorem scene_capture_after_any (v : Main.Video) (k : Z) (t : Q)
        (l1 l2 l3 : list Main.Capture) (c1 c2 : Main.Capture) :
  fst (Main.extract_frames v k t) = l1 ++ c1 :: l2 ++ c2 :: l3 ->
  Main.trigger c2 = Main.SceneChange ->
  Main.frame_index c2 - Main.frame_index c1 > Main.video_fps v * 5.
Proof.
  intros E H2. apply extract_frames_split in E.
  pose proof (loop_chained (Main.video_fps v) k t (Main.frames v)
                (Main.init (Main.video_fps v) k)) as Hch.
  rewrite E in Hch. apply chained_tail in Hch.
  apply (chained_gap _ _ _ _ c2) in Hch; [|lia|apply in_elt].
  now apply Hch.
Qed.

(** Twenty identical frames at 1 fps, threshold -1: the interval
    capture at frame 10 and the scene-change capture at frame 16. *)
Lemma scene_capture_after_any_witness :
  16 - 10 > 1 * 5.
Proof.
  exact (scene_capture_after_any
           (video 1 (repeat (flat 7 4) 20)) 10 (-1 # 1)
           [{| Main.sequence_number := 0; Main.frame_index := 1;
               Main.timestamp := (0, 0, 1);
               Main.trigger := Main.SceneChange; Main.written := WriteOk |};
            {| Main.sequence_number := 1; Main.frame_index := 7;
               Main.timestamp := (0, 0, 7);
               Main.trigger := Main.SceneChange; Main.written := WriteOk |}]
           [] []
           {| Main.sequence_number := 2; Main.frame_index := 10;
              Main.timestamp := (0, 0, 10);
              Main.trigger := Main.Interval; Main.written := WriteOk |}
           {| Main.sequence_number := 3; Main.frame_index := 16;
              Main.timestamp := (0, 0, 16);
              Main.trigger := Main.SceneChange; Main.written := WriteOk |}
           eq_refl eq_refl).
Defined.

Lemma should_capture_none_inv fps k t st g :
  Main.should_capture fps k t st g = inr None ->
  Main.prev_frame st = None \/
  (k * fps <> 0 /\ Main.frame_count st mod (k * fps) <> 0).
Proof.
  unfold Main.should_capture.
  destruct (Main.prev_frame st) as [p|]; [|now left].
  destruct (absdiff g p) as [d|]; [|discriminate].
  destruct (gt (np_mean d) t && _); [discriminate|].
  destruct (Z.eqb_spec (k * fps) 0); [discriminate|].
  destruct (Z.eqb_spec (Main.frame_count st mod (k * fps)) 0); [discriminate|].
  intros _. now right.
Qed.

Lemma loop_boundary_captured fps k t fs : forall st i,
  (Main.prev_frame st = None -> Main.frame_count st < i) ->
  Main.frame_count st <= i
  < Main.frame_count (Main.final (Main.loop fps k t st fs)) ->
  i mod (k * fps) = 0 ->
  captures_at i (Main.emitted (Main.loop fps k t st fs)) = 1%nat.
Proof.
  induction fs as [|fr fs IH]; intros st i Hfirst Hi Hm;
    cbn [Main.loop Main.final Main.emitted] in *; [lia|].
  destruct (Main.step fps k t st fr) as [e|[st' oc]] eqn:Es;
    cbn [Main.final Main.emitted Main.emit] in *; [lia|].
  apply step_inv in Es. destruct Es as [Hc|g Hc Hs|g tr Hc Hs].
  - now apply IH.
  - assert (Hne : Main.frame_count st <> i).
    { intros <-. apply should_capture_none_inv in Hs as [Hp|[_ Hmod]];
        [specialize (Hfirst Hp); lia|contradiction]. }
    apply IH; [discriminate|cbn in *; lia|assumption].
  - set (st2 := Main.advance _ g) in *.
    assert (H2 : Main.frame_count st2 = Main.frame_count st + 1) by reflexivity.
    change (?c :: ?l) with ([c] ++ l). rewrite captures_at_app.
    destruct (Z.eq_dec (Main.frame_count st) i) as [<-|Hne].
    + rewrite (captures_at_none _ (Main.emitted (Main.loop fps k t st2 fs))).
      * unfold captures_at. cbn. now rewrite Z.eqb_refl.
      * intros c Hin. apply (loop_bounds fps k t fs st2) in Hin. lia.
    + rewrite (IH st2 i); [|discriminate|lia|assumption].
      unfold captures_at. cbn.
      destruct (Z.eqb_spec (Main.frame_count st) i); [contradiction|reflexivity].
Qed.

(** X6: in a run that ends without an exception, every converted
    frame after frame 0 whose index is a multiple of
    [interval_seconds * fps] is captured, exactly once. *)
Theorem boundaries_always_captured (f k : Z) (t : Q) (fs : list Frame)
        (n i : Z) :
  k * f <> 0 ->
  snd (Main.extract_frames (video f fs) k t) = inr n ->
  1 <= i < Z.of_nat (length (grays fs)) ->
  i mod (k * f) = 0 ->
  captures_at i (fst (Main.extract_frames (video f fs) k t)) = 1%nat.
Proof.
  intros Hkf. unfold Main.extract_frames, video.
  cbn [Main.path_exists Main.is_opened Main.video_fps Main.frames negb].
  destruct (Z.eqb_spec f 0) as [->|_]; [lia|]. cbn [fst snd].
  destruct (Main.raised _) eqn:Hr; [discriminate|]. intros _ Hi Hm.
  apply loop_boundary_captured; [cbn; lia| |assumption].
  rewrite (loop_frame_count f k t fs _ Hr), <- grays_filter. cbn. lia.
Qed.

(** Twenty identical frames at 1 fps with [interval_seconds = 10],
    threshold -1: frame 10 is captured once although frame 7 was
    captured three frames before. *)
Lemma boundaries_always_captured_witness :
  captures_at 10
    (fst (Main.extract_frames (video 1 (repeat (flat 7 4) 20)) 10 (-1 # 1)))
  = 1%nat.
Proof.
  apply (boundaries_always_captured 1 10 (-1 # 1) (repeat (flat 7 4) 20) 4 10);
    [discriminate|reflexivity|cbn; lia|reflexivity].
Defined.

Lemma loop_interval_on_boundary fps k t fs : forall st c,
  In c (Main.emitted (Main.loop fps k t st fs)) ->
  Main.trigger c = Main.Interval ->
  k * fps <> 0 /\ Main.frame_index c mod (k * fps) = 0.
Proof.
  induction fs as [|fr fs IH]; intros st c; cbn [Main.loop Main.emitted];
    [contradiction|].
  destruct (Main.step fps k t st fr) as [e|[st' oc]] eqn:Es;
    cbn [Main.emitted]; [contradiction|].
  apply step_inv in Es. unfold Main.emit. cbn [Main.emitted].
  destruct Es as [Hc|g Hc Hs|g tr Hc Hs]; try apply IH.
  intros [<-|Hin]; [|exact (IH _ c Hin)]. cbn. intros ->.
  now apply (interval_inv fps k t st g) in Hs.
Qed.

(** X7: a capture made by the interval branch sits on a multiple of
    [interval_seconds * fps]; any other capture is a scene-change
    capture. *)
Theorem interval_capture_on_boundary (v : Main.Video) (k : Z) (t : Q)
        (c : Main.Capture) :
  In c (fst (Main.extract_frames v k t)) ->
  (Main.trigger c = Main.Interval ->
   k * Main.video_fps v <> 0 /\
   Main.frame_index c mod (k * Main.video_fps v) = 0) /\
  (Main.frame_index c mod (k * Main.video_fps v) <> 0 ->
   Main.trigger c = Main.SceneChange).
Proof.
  intros Hin. apply extract_frames_captures in Hin.
  pose proof (loop_interval_on_boundary _ _ _ _ _ _ Hin) as H.
  split; [exact H|].
  intros Hm. destruct (Main.trigger c); [reflexivity|].
  destruct (H eq_refl) as [_ H0]. contradiction.
Qed.

(** Twenty identical frames at 1 fps, threshold -1: the interval
    capture at frame 10 is on a boundary of [interval_seconds = 10];
    the capture at frame 7 is off the boundaries. *)
Lemma interval_capture_on_boundary_witness :
  (10 * 1 <> 0 /\ 10 mod (10 * 1) = 0) /\
  Main.SceneChange = Main.SceneChange.
Proof.
  split.
  - apply (proj1 (interval_capture_on_boundary
                    (video 1 (repeat (flat 7 4) 20)) 10 (-1 # 1)
                    {| Main.sequence_number := 2; Main.frame_index := 10;
                       Main.timestamp := (0, 0, 10);
                       Main.trigger := Main.Interval;
                       Main.written := WriteOk |}
                    (or_intror (or_intror (or_introl eq_refl))))).
    reflexivity.
  - apply (proj2 (interval_capture_on_boundary
                    (video 1 (repeat (flat 7 4) 20)) 10 (-1 # 1)
                    {| Main.sequence_number := 1; Main.frame_index := 7;
                       Main.timestamp := (0, 0, 7);
                       Main.trigger := Main.SceneChange;
                       Main.written := WriteOk |}
                    (or_intror (or_introl eq_refl)))).
    discriminate.
Defined.

(** X8: with [interval_seconds = 0] and [fps >= 1] the run ends in
    [ZeroDivisionError] on the second frame that converts, before any
    capture: at frame 1 the cooldown has not passed, so the interval
    test [frame_count % 0] is reached. *)
Theorem zero_interval_raises (v : Main.Video) (t : Q) (g0 g1 : Gray)
        (gs : list Gray) :
  Main.path_exists v = true -> Main.is_opened v = true ->
  1 <= Main.video_fps v ->
  grays (Main.frames v) = g0 :: g1 :: gs ->
  length g1 = length g0 ->
  Main.extract_frames v 0 t = ([], inl ZeroDivisionError).
Proof.
  intros He Ho Hf Hg Hlen. unfold Main.extract_frames.
  rewrite He, Ho. cbn [negb].
  destruct (Z.eqb_spec (Main.video_fps v) 0) as [E|_]; [lia|].
  destruct (loop_grays_cons (Main.video_fps v) 0 t _ _ _ Hg)
    as (fr0 & fs0 & Hc0 & Hg0 & Hl0).
  destruct (loop_grays_cons (Main.video_fps v) 0 t _ _ _ Hg0)
    as (fr1 & fs1 & Hc1 & _ & Hl1).
  assert (Hrun : Main.loop (Main.video_fps v) 0 t
                   (Main.init (Main.video_fps v) 0) (Main.frames v)
                 = {| Main.emitted := [];
                      Main.final := Main.advance (Main.init (Main.video_fps v) 0) g0;
                      Main.raised := Some ZeroDivisionError |}).
  { rewrite Hl0. cbn [Main.loop]. unfold Main.step at 1. rewrite Hc0.
    cbn [Main.should_capture Main.init Main.prev_frame].
    rewrite Hl1. cbn [Main.loop]. unfold Main.step, Main.should_capture.
    rewrite Hc1. cbn [Main.advance Main.prev_frame Main.frame_count
                      Main.last_captured].
    unfold absdiff. rewrite Hlen, Nat.eqb_refl.
    cbn [Main.init Main.frame_count Main.last_captured].
    match goal with
    | |- context [?a >? ?b] => destruct (Z.gtb_spec a b); [lia|]
    end.
    rewrite andb_false_r. reflexivity. }
  now rewrite Hrun.
Qed.

(** Two frames at 30 fps. *)
Lemma zero_interval_raises_witness :
  Main.extract_frames (video 30 [flat 0 4; flat 255 4]) 0 (30 # 1)
  = ([], inl ZeroDivisionError).
Proof.
  apply (zero_interval_raises (video 30 [flat 0 4; flat 255 4]) (30 # 1)
           [0; 0; 0; 0] [255; 255; 255; 255] []);
    [reflexivity|reflexivity|cbn; lia|reflexivity|reflexivity].
Defined.

Lemma loop_never_raises fps k t n fs : forall st,
  k * fps <> 0 ->
  (forall p, Main.prev_frame st = Some p -> length p = n) ->
  same_shape n (grays fs) = true ->
  Main.raised (Main.loop fps k t st fs) = None.
Proof.
  induction fs as [|fr fs IH]; intros st Hkf Hp Hs; [reflexivity|].
  cbn [Main.loop]. cbn [grays] in Hs. unfold Main.step.
  destruct (cvtColor fr) as [g|]; [|now apply IH].
  cbn [same_shape forallb] in Hs. apply andb_true_iff in Hs as [Hg Hs].
  apply Nat.eqb_eq in Hg.
  assert (Hnext : forall st', Main.prev_frame st' = Some g ->
                  Main.raised (Main.loop fps k t st' fs) = None).
  { intros st' E. apply IH; [assumption| |assumption].
    intros p. rewrite E. now intros [= <-]. }
  unfold Main.should_capture.
  destruct (Main.prev_frame st) as [p|] eqn:Ep; [|now apply Hnext].
  unfold absdiff. rewrite Hg, (Hp p eq_refl), Nat.eqb_refl.
  destruct (gt _ t && _); [now apply Hnext|].
  destruct (Z.eqb_spec (k * fps) 0); [contradiction|].
  destruct (_ mod _ =? 0); now apply Hnext.
Qed.

(** X9: when [fps] and [interval_seconds] are not 0 and all converted
    frames have the same number of pixels, [extract_frames] returns a
    count and does not raise. *)
Theorem uniform_frames_never_raise (v : Main.Video) (k : Z) (t : Q) (n : nat) :
  Main.video_fps v <> 0 -> k <> 0 ->
  same_shape n (grays (Main.frames v)) = true ->
  exists count, snd (Main.extract_frames v k t) = inr count.
Proof.
  intros Hf Hk Hs. unfold Main.extract_frames.
  destruct (negb (Main.path_exists v)); [now exists 0|].
  destruct (negb (Main.is_opened v)); [now exists 0|].
  destruct (Z.eqb_spec (Main.video_fps v) 0); [contradiction|].
  cbn [snd].
  rewrite (loop_never_raises (Main.video_fps v) k t n (Main.frames v)
             (Main.init (Main.video_fps v) k) ltac:(nia)
             ltac:(cbn; discriminate) Hs).
  eauto.
Qed.

(** The black-then-white stream on frames of 4 pixels. *)
Lemma uniform_frames_never_raise_witness :
  exists count,
    snd (Main.extract_frames (video 10 (black_then_white 4)) 100 (30 # 1))
    = inr count.
Proof.
  apply (uniform_frames_never_raise (video 10 (black_then_white 4)) 100
           (30 # 1) 4); [discriminate|discriminate|reflexivity].
Defined.

Lemma loop_timestamps fps k t fs : forall st c,
  In c (Main.emitted (Main.loop fps k t st fs)) ->
  Main.timestamp c = Main.timestamp_of fps (Main.frame_index c).
Proof.
  induction fs as [|fr fs IH]; intros st c; cbn [Main.loop Main.emitted];
    [contradiction|].
  destruct (Main.step fps k t st fr) as [e|[st' oc]] eqn:Es;
    cbn [Main.emitted]; [contradiction|].
  apply step_inv in Es. unfold Main.emit. cbn [Main.emitted].
  destruct Es as [Hc|g Hc Hs|g tr Hc Hs]; try apply IH.
  intros [<-|Hin]; [reflexivity|exact (IH _ c Hin)].
Qed.

(** Hours, minutes and seconds of a number of seconds. *)
Lemma hms_fields q :
  0 <= q ->
  0 <= q / 3600 /\ 0 <= (q mod 3600) / 60 < 60 /\ 0 <= q mod 60 < 60 /\
  q / 3600 * 3600 + (q mod 3600) / 60 * 60 + q mod 60 = q.
Proof.
  intros Hq.
  pose proof (Z.div_mod q 3600 ltac:(lia)) as E1.
  pose proof (Z.mod_pos_bound q 3600 ltac:(lia)) as B1.
  pose proof (Z.div_mod (q mod 3600) 60 ltac:(lia)) as E2.
  pose proof (Z.mod_pos_bound (q mod 3600) 60 ltac:(lia)) as B2.
  assert (E3 : (q mod 3600) mod 60 = q mod 60).
  { replace (q mod 3600) with (q + (- (q / 3600) * 60) * 60) by lia.
    apply Z.mod_add. lia. }
  rewrite E3 in *.
  assert (0 <= q / 3600) by (apply Z.div_pos; lia).
  assert (0 <= (q mod 3600) / 60 < 60).
  { split; [apply Z.div_pos; lia|]. apply Z.div_lt_upper_bound; lia. }
  repeat split; lia.
Qed.

(** X10: at a positive [fps] the timestamp in the name of a capture
    is made of hours >= 0, minutes and seconds in 0..59, and stands
    for [frame_index / fps] whole seconds. *)
Theorem capture_timestamp_fields (v : Main.Video) (k : Z) (t : Q)
        (c : Main.Capture) (hours minutes secs : Z) :
  0 < Main.video_fps v ->
  In c (fst (Main.extract_frames v k t)) ->
  Main.timestamp c = (hours, minutes, secs) ->
  0 <= hours /\ 0 <= minutes < 60 /\ 0 <= secs < 60 /\
  hours * 3600 + minutes * 60 + secs
  = Main.frame_index c / Main.video_fps v.
Proof.
  intros Hf Hin Hts.
  pose proof (proj1 (capture_indices_positive_aux v k t c Hin)) as Hpos.
  apply extract_frames_captures in Hin.
  rewrite (loop_timestamps _ _ _ _ _ _ Hin) in Hts.
  unfold Main.timestamp_of in Hts.
  rewrite Z.quot_div_nonneg in Hts by lia.
  injection Hts as <- <- <-.
  apply hms_fields. apply Z.div_pos; lia.
Qed.

(** At 1 fps with [interval_seconds = 75], frame 75 of 76 identical
    frames is captured under the timestamp 00-01-15. *)
Lemma capture_timestamp_fields_witness :
  0 <= 0 /\ 0 <= 1 < 60 /\ 0 <= 15 < 60 /\ 0 * 3600 + 1 * 60 + 15 = 75 / 1.
Proof.
  apply (capture_timestamp_fields (video 1 (repeat (flat 0 1) 76)) 75 (30 # 1)
           {| Main.sequence_number := 0; Main.frame_index := 75;
              Main.timestamp := (0, 1, 15);
              Main.trigger := Main.Interval; Main.written := WriteOk |}
           0 1 15);
    [reflexivity|vm_compute; left; reflexivity|reflexivity].
Defined.

Lemma saved_nonempty cs :
  (Z.of_nat (length (saved cs)) >? 0) = true <->
  exists c, In c cs /\ Main.written c = WriteOk.
Proof.
  unfold saved. split.
  - destruct (filter _ cs) as [|c l] eqn:E; [discriminate|]. intros _.
    assert (Hin : In c (filter
              (fun c => match Main.written c with WriteOk => true | _ => false end)
              cs)) by (rewrite E; now left).
    apply filter_In in Hin as [Hin Hw]. exists c. split; [assumption|].
    now destruct (Main.written c).
  - intros (c & Hin & Hw).
    assert (Hf : In c (filter
              (fun c => match Main.written c with WriteOk => true | _ => false end)
              cs)) by (apply filter_In; now rewrite Hw).
    destruct (filter _ cs); [contradiction|]. cbn [length].
    apply Z.gtb_lt. lia.
Qed.

(** X11: [process] answers [False] when the download failed; after a
    download it answers [True] exactly when some screenshot was
    written.  When [fps] is not 0 and the converted frames have one
    size it does not raise: the default interval of 30 seconds never
    makes the interval test divide by zero. *)
Theorem process_reports_saved (v : Main.Video) :
  Main.process None = ([], inr false) /\
  (forall b, snd (Main.process (Some v)) = inr b ->
     (b = true <->
      exists c, In c (fst (Main.process (Some v))) /\ Main.written c = WriteOk)) /\
  (forall n, Main.video_fps v <> 0 ->
     same_shape n (grays (Main.frames v)) = true ->
     exists b, snd (Main.process (Some v)) = inr b).
Proof.
  split; [reflexivity|]. unfold Main.process.
  pose proof (extract_frames_count v 30 (30 # 1)) as Hcount.
  split.
  - destruct (Main.extract_frames v 30 (30 # 1)) as [cs [e|n]];
      cbn [fst snd] in *; [discriminate|].
    intros b [= <-]. rewrite (Hcount n eq_refl). apply saved_nonempty.
  - intros n Hf Hs.
    assert (Hloop : Main.raised
              (Main.loop (Main.video_fps v) 30 (30 # 1)
                 (Main.init (Main.video_fps v) 30) (Main.frames v)) = None).
    { apply (loop_never_raises _ _ _ n); [lia|cbn; discriminate|assumption]. }
    unfold Main.extract_frames.
    destruct (negb (Main.path_exists v)); [now exists false|].
    destruct (negb (Main.is_opened v)); [now exists false|].
    destruct (Z.eqb_spec (Main.video_fps v) 0); [contradiction|].
    rewrite Hloop. cbn [snd]. eauto.
Qed.

(** The black-then-white stream at 10 fps: one screenshot is written
    and [process] answers [True]. *)
Lemma process_reports_saved_witness :
  (true = true <->
   exists c, In c (fst (Main.process (Some (video 10 (black_then_white 4)))))
             /\ Main.written c = WriteOk) /\
  exists b, snd (Main.process (Some (video 10 (black_then_white 4)))) = inr b.
Proof.
  destruct (process_reports_saved (video 10 (black_then_white 4)))
    as (_ & Hiff & Hok).
  split.
  - apply (Hiff true). vm_compute. reflexivity.
  - apply (Hok 4%nat); [discriminate|vm_compute; reflexivity].
Defined.

(** ** The file names *)

Section NameFacts.

Import Ascii String.
Local Open Scope string_scope.

Lemma all_digits_app a b :
  Names.all_digits (a ++ b) = Names.all_digits a && Names.all_digits b.
Proof.
  induction a as [|x a IH]; cbn; [reflexivity|].
  now rewrite IH, andb_assoc.
Qed.

Lemma all_digits_zeros k : Names.all_digits (Names.zeros k) = true.
Proof.
  induction k as [|k IH]; cbn; [reflexivity|assumption].
Qed.

Lemma all_digits_uint d :
  Names.all_digits (DecimalString.NilEmpty.string_of_uint d) = true.
Proof.
  induction d; cbn; auto.
Qed.

Lemma all_digits_format w n :
  (0 <= n)%Z -> Names.all_digits (Names.format_d w n) = true.
Proof.
  intros Hn. unfold Names.format_d, Names.zfill, Names.digits.
  destruct (Z.ltb_spec n 0); [lia|].
  now rewrite all_digits_app, all_digits_zeros, all_digits_uint.
Qed.

Lemma number_of_zeros k s :
  Names.number_of (Names.zeros k ++ s) = Names.number_of s.
Proof.
  induction k as [|k IH]; [reflexivity|].
  cbn [Names.zeros append]. unfold Names.number_of in *.
  cbn [DecimalString.NilEmpty.uint_of_string].
  destruct (DecimalString.NilEmpty.uint_of_string (Names.zeros k ++ s)) as [d|];
    cbn in *; [|exact IH].
  exact IH.
Qed.

(** Reading back what [format_d] prints. *)
Lemma number_of_format w n :
  (0 <= n)%Z -> Names.number_of (Names.format_d w n) = Some (Z.to_N n).
Proof.
  intros Hn. unfold Names.format_d, Names.zfill, Names.digits.
  destruct (Z.ltb_spec n 0); [lia|].
  rewrite number_of_zeros. unfold Names.number_of.
  rewrite DecimalString.NilEmpty.usu. cbn [option_map].
  now rewrite DecimalN.Unsigned.of_to.
Qed.

Lemma format_d_inj w a b :
  (0 <= a)%Z -> (0 <= b)%Z ->
  Names.format_d w a = Names.format_d w b -> a = b.
Proof.
  intros Ha Hb E. apply (f_equal Names.number_of) in E.
  rewrite !number_of_format in E by assumption.
  injection E as E. now apply Z2N.inj.
Qed.

(** Two numerals followed by the same separator. *)
Lemma digits_split c : forall a1 a2 r1 r2,
  Names.is_digit c = false ->
  Names.all_digits a1 = true -> Names.all_digits a2 = true ->
  a1 ++ String c r1 = a2 ++ String c r2 -> a1 = a2 /\ r1 = r2.
Proof.
  induction a1 as [|x a1 IH]; intros [|y a2] r1 r2 Hc H1 H2 E; cbn in *.
  - now injection E as ->.
  - injection E as <- _. apply andb_true_iff in H2 as [H2 _]. congruence.
  - injection E as -> _. apply andb_true_iff in H1 as [H1 _]. congruence.
  - injection E as -> E.
    apply andb_true_iff in H1 as [_ H1]. apply andb_true_iff in H2 as [_ H2].
    destruct (IH a2 r1 r2 Hc H1 H2 E) as [-> ->]. now split.
Qed.

Lemma append_cancel p : forall x y, p ++ x = p ++ y -> x = y.
Proof.
  induction p as [|c p IH]; cbn; intros x y E; [assumption|].
  injection E as E. now apply IH.
Qed.

Lemma screenshot_name_number c1 c2 :
  (0 <= Main.sequence_number c1)%Z -> (0 <= Main.sequence_number c2)%Z ->
  Names.screenshot_name c1 = Names.screenshot_name c2 ->
  Main.sequence_number c1 = Main.sequence_number c2.
Proof.
  intros H1 H2. unfold Names.screenshot_name.
  destruct (Main.timestamp c1) as [[h1 m1] s1].
  destruct (Main.timestamp c2) as [[h2 m2] s2].
  intros E. apply append_cancel in E.
  change ("_" ++ ?r) with (String "_" r) in E.
  apply digits_split in E as [E _];
    [|reflexivity|now apply all_digits_format|now apply all_digits_format].
  now apply format_d_inj in E.
Qed.

(** X12: a screenshot that was written is not overwritten later in
    the run: every later capture has another file name. *)
Theorem saved_name_not_reused (v : Main.Video) (k : Z) (t : Q)
        (l1 l2 l3 : list Main.Capture) (c1 c2 : Main.Capture) :
  fst (Main.extract_frames v k t) = (l1 ++ c1 :: l2 ++ c2 :: l3)%list ->
  Main.written c1 = WriteOk ->
  Names.screenshot_name c1 <> Names.screenshot_name c2.
Proof.
  intros E Hw Hname. apply extract_frames_split in E.
  pose proof (loop_sequence_numbers _ _ _ _ _ l1 c1 (l2 ++ c2 :: l3)%list E) as N1.
  rewrite app_comm_cons, app_assoc in E.
  pose proof (loop_sequence_numbers _ _ _ _ _ _ c2 l3 E) as N2.
  cbn [Main.init Main.screenshots_taken] in N1, N2.
  apply screenshot_name_number in Hname; [|lia|lia].
  rewrite N1, N2 in Hname. unfold saved in Hname.
  rewrite !filter_app, !length_app in Hname. cbn [filter] in Hname.
  rewrite Hw in Hname. cbn [Datatypes.length] in Hname. lia.
Qed.

(** At 1 fps with [interval_seconds = 1] the frames 1, 2 and 3 are
    captured; the write of frame 2 fails and frame 3 takes its number
    1, but not the name of the screenshot 0. *)
Lemma saved_name_not_reused_witness :
  "screenshot_000_00-00-01.png" <> "screenshot_001_00-00-03.png".
Proof.
  exact (saved_name_not_reused
           (video 1 [flat 0 4; flat 0 4;
                     {| cvtColor := Some [0; 0; 0; 0]; imwrite := WriteFailed |};
                     flat 0 4]) 1 (30 # 1)
           []
           [{| Main.sequence_number := 1; Main.frame_index := 2;
               Main.timestamp := (0, 0, 2);
               Main.trigger := Main.Interval; Main.written := WriteFailed |}]
           []
           {| Main.sequence_number := 0; Main.frame_index := 1;
              Main.timestamp := (0, 0, 1);
              Main.trigger := Main.Interval; Main.written := WriteOk |}
           {| Main.sequence_number := 1; Main.frame_index := 3;
              Main.timestamp := (0, 0, 3);
              Main.trigger := Main.Interval; Main.written := WriteOk |}
           eq_refl eq_refl).
Defined.

(** X16: in timestamp mode two requests with non-negative minutes and
    seconds get the same file name only if they are the same
    timestamp. *)
Theorem timestamp_name_injective (m1 s1 m2 s2 : Z) :
  (0 <= m1)%Z -> (0 <= s1)%Z -> (0 <= m2)%Z -> (0 <= s2)%Z ->
  Names.timestamp_name m1 s1 = Names.timestamp_name m2 s2 ->
  m1 = m2 /\ s1 = s2.
Proof.
  intros Hm1 Hs1 Hm2 Hs2. unfold Names.timestamp_name. intros E.
  apply append_cancel in E.
  change ("-" ++ ?r) with (String "-" r) in E.
  apply digits_split in E as [Em E];
    [|reflexivity|now apply all_digits_format|now apply all_digits_format].
  change (".png") with (String "." "png") in E.
  apply digits_split in E as [Es _];
    [|reflexivity|now apply all_digits_format|now apply all_digits_format].
  split; [now apply format_d_inj in Em|now apply format_d_inj in Es].
Qed.

(** The names of 11:18 and 11:18. *)
Lemma timestamp_name_injective_witness :
  11%Z = 11%Z /\ 18%Z = 18%Z.
Proof.
  apply (timestamp_name_injective 11 18 11 18); try lia. reflexivity.
Defined.

Example format_d_examples :
  Names.format_d 3 7 = "007" /\ Names.format_d 3 1234 = "1234" /\
  Names.format_d 2 0 = "00" /\ Names.format_d 2 (-5) = "-5" /\
  Names.format_d 3 (-5) = "-05".
Proof.
  repeat split.
Qed.

End NameFacts.

(** ** Further properties of the timestamp-driven extractor *)








Lemma for_timestamps_in v ts : forall successful o,
  In o (fst (AtTime.for_timestamps v ts successful)) ->
  exists m s, In (m, s) ts /\ AtTime.get_screenshot v m s = inr o.
Proof.
  induction ts as [|[m s] ts IH]; intros n o; cbn [AtTime.for_timestamps fst];
    [contradiction|].
  destruct (AtTime.get_screenshot v m s) as [e|o'] eqn:Eg; [contradiction|].
  specialize (IH (if AtTime.success o' then n + 1 else n) o).
  destruct (AtTime.for_timestamps v ts _) as [outs r]. cbn [fst] in *.
  intros [<-|Hin].
  - exists m, s. split; [now left|assumption].
  - destruct (IH Hin) as (m' & s' & Hin' & Eg'). exists m', s'.
    split; [now right|assumption].
Qed.

(** X15: a frame that a batch reads and passes to [imwrite] is the
    frame [(minutes*60 + seconds) * fps] of a timestamp of the batch,
    and its number is below [total_frames]. *)
Theorem written_frame_in_range (v : AtTime.Video) (ts : list (Z * Z))
        (n : Z) (r : imwrite_result) :
  In (AtTime.Wrote n r) (fst (AtTime.capture_timestamps (Some v) ts)) ->
  n < AtTime.total_frames v /\
  exists m s frame,
    In (m, s) ts /\ n = (m * 60 + s) * AtTime.fps v /\
    AtTime.read_at v n = Some frame /\ r = imwrite frame.
Proof.
  unfold AtTime.capture_timestamps.
  pose proof (for_timestamps_in v ts 0 (AtTime.Wrote n r)) as H.
  destruct (AtTime.for_timestamps v ts 0) as [outs res]. cbn [fst] in *.
  intros Hin. destruct (H Hin) as (m & s & Hts & Eg). revert Eg.
  unfold AtTime.get_screenshot.
  destruct (negb (AtTime.path_exists v)); [discriminate|].
  destruct (negb (AtTime.is_opened v)); [discriminate|].
  destruct (AtTime.fps v =? 0); [discriminate|].
  unfold AtTime.resolve, AtTime.frame_number.
  destruct (Z.geb_spec ((m * 60 + s) * AtTime.fps v) (AtTime.total_frames v));
    [discriminate|].
  destruct (AtTime.read_at v _) as [frame|] eqn:Er; [|discriminate].
  intros [= <- <-]. split; [assumption|].
  exists m, s, frame. now repeat split.
Qed.

(** The ten-second video and the batch 0:01, 16:39, 0:02: the frame
    60 is written. *)
Lemma written_frame_in_range_witness :
  60 < 300 /\
  exists m s frame,
    In (m, s) [(0, 1); (999, 0); (0, 2)] /\ 60 = (m * 60 + s) * 30 /\
    AtTime.read_at ten_seconds 60 = Some frame /\ WriteOk = imwrite frame.
Proof.
  apply (written_frame_in_range ten_seconds [(0, 1); (999, 0); (0, 2)] 60 WriteOk).
  right. right. left. reflexivity.
Defined.

(** X17: at a positive [fps], once a timestamp is beyond the duration
    every later timestamp is too. *)
Theorem beyond_duration_monotone (fps total_frames m1 s1 m2 s2 : Z) :
  0 < fps ->
  m1 * 60 + s1 <= m2 * 60 + s2 ->
  AtTime.resolve fps total_frames m1 s1 = None ->
  AtTime.resolve fps total_frames m2 s2 = None.
Proof.
  intros Hf Hle. unfold AtTime.resolve, AtTime.frame_number.
  destruct (Z.geb_spec ((m1 * 60 + s1) * fps) total_frames); [|discriminate].
  intros _.
  destruct (Z.geb_spec ((m2 * 60 + s2) * fps) total_frames); [reflexivity|nia].
Qed.

(** 0:10 is the end of the ten-second video; 1:00 is later. *)
Lemma beyond_duration_monotone_witness :
  AtTime.resolve 30 300 1 0 = None.
Proof.
  apply (beyond_duration_monotone 30 300 0 10 1 0); [lia|lia|reflexivity].
Defined.




(** ** The state the scene-driven loop ends in *)

Lemma last_cons {A} (x : A) l d : last (x :: l) d = last l x.
Proof.
  revert x d. induction l as [|y l IH]; intros x d; [reflexivity|].
  change (last (x :: y :: l) d) with (last (y :: l) d). now rewrite !IH.
Qed.

Lemma loop_final_state fps k t fs : forall st,
  Main.last_captured (Main.final (Main.loop fps k t st fs))
  = last (map Main.frame_index (Main.emitted (Main.loop fps k t st fs)))
         (Main.last_captured st) /\
  (Main.raised (Main.loop fps k t st fs) = None ->
   Main.prev_frame (Main.final (Main.loop fps k t st fs))
   = last (map Some (grays fs)) (Main.prev_frame st)).
Proof.
  induction fs as [|fr fs IH]; intros st; cbn [Main.loop grays];
    [now split|].
  destruct (Main.step fps k t st fr) as [e|[st' oc]] eqn:Es;
    cbn [Main.final Main.emitted Main.raised Main.emit map];
    [split; [reflexivity|discriminate]|].
  apply step_inv in Es.
  destruct Es as [Hc|g Hc Hs|g tr Hc Hs]; rewrite Hc;
    match goal with
    | |- context [Main.loop fps k t ?s fs] => destruct (IH s) as [Hl Hp]
    end.
  - now split.
  - split; [exact Hl|]. intros Hr. rewrite (Hp Hr). cbn [map].
    now rewrite last_cons.
  - split.
    + cbn [map]. rewrite last_cons. exact Hl.
    + intros Hr. rewrite (Hp Hr). cbn [map]. now rewrite last_cons.
Qed.

(** X19: when the loop ends, [last_captured] is the frame index of
    the last capture made (the initial [-interval_seconds * fps] when
    there is none) and, if no exception ended it, [prev_frame] is the
    grayscale of the last frame that converted, [frame_count] the
    number of frames that converted. *)
Theorem loop_final_history (fps k : Z) (t : Q) (fs : list Frame) :
  Main.last_captured (Main.final (Main.loop fps k t (Main.init fps k) fs))
  = last (map Main.frame_index
              (Main.emitted (Main.loop fps k t (Main.init fps k) fs)))
         (- k * fps) /\
  (Main.raised (Main.loop fps k t (Main.init fps k) fs) = None ->
   Main.prev_frame (Main.final (Main.loop fps k t (Main.init fps k) fs))
   = last (map Some (grays fs)) None /\
   Main.frame_count (Main.final (Main.loop fps k t (Main.init fps k) fs))
   = Z.of_nat (length (grays fs))).
Proof.
  destruct (loop_final_state fps k t fs (Main.init fps k)) as [Hl Hp].
  split; [exact Hl|]. intros Hr. split; [exact (Hp Hr)|].
  rewrite (loop_frame_count fps k t fs _ Hr), grays_filter. reflexivity.
Qed.

(** Twenty identical frames at 1 fps, threshold -1: the last capture
    is at frame 16. *)
Lemma loop_final_history_witness :
  Main.prev_frame
    (Main.final (Main.loop 1 10 (-1 # 1) (Main.init 1 10) (repeat (flat 7 4) 20)))
  = Some [7; 7; 7; 7] /\
  Main.frame_count
    (Main.final (Main.loop 1 10 (-1 # 1) (Main.init 1 10) (repeat (flat 7 4) 20)))
  = 20.
Proof.
  apply (proj2 (loop_final_history 1 10 (-1 # 1) (repeat (flat 7 4) 20))).
  reflexivity.
Defined.
